(** * ShepherdsPowerTools: the door cut engine

    A shallow embedding of [calculateCuts] from
    [src/renderer/src/pages/DoorCalculator.tsx] (lines 102-205), together with
    the types it reads and returns ([DoorConfig], [UnitPosition], [CutResult])
    and the constant [defaultConfig].

    JavaScript's [number] is an IEEE-754 binary64.  The engine only uses
    [+ - * /], the comparisons [<], [<=], [>], and [Math.round], so it is
    written once over an interface [JSNumber] holding exactly these, and run
    at the instance [float_JSNumber]: Rocq's primitive binary64 floats.

    Statements that only depend on the shape of the code are proved for every
    instance of the interface.  Statements about values are proved for the
    doubles: by evaluation on a given configuration, and, where they range
    over configurations, for the integer values the sliders of the editor
    deliver, by evaluating every case.

    Around the engine, the development also covers the zoom of
    [DoorPreview], the handlers of the door list ([update], [addDoor],
    [deleteDoor], [startRename], [commitRename]), the page selection of
    [App], and the [storage] wrapper of local storage. *)

From Stdlib Require Import ZArith QArith Qround List String Bool Lia.
From Stdlib Require Import FloatClass PrimFloat FloatOps FloatAxioms SpecFloat.
From Stdlib Require Import Uint63.
From Stdlib Require Import DecimalString.
Import ListNotations.

Set Warnings "-inexact-float".

(** ** Numbers *)

Class JSNumber (num : Type) : Type := {
  lit : Z -> num;                  (* an integer literal of the source *)
  add : num -> num -> num;         (* x + y *)
  sub : num -> num -> num;         (* x - y *)
  mul : num -> num -> num;         (* x * y *)
  div : num -> num -> num;         (* x / y *)
  ltb : num -> num -> bool;        (* x < y *)
  leb : num -> num -> bool;        (* x <= y *)
  Math_round : num -> num          (* Math.round(x) *)
}.

(** [x > y] is evaluated as [y < x] (both are false when an operand is NaN). *)
Definition gtb {num : Type} `{JSNumber num} (x y : num) : bool := ltb y x.

Declare Scope num_scope.
Delimit Scope num_scope with num.
Notation "x + y" := (add x y) : num_scope.
Notation "x - y" := (sub x y) : num_scope.
Notation "x * y" := (mul x y) : num_scope.
Notation "x / y" := (div x y) : num_scope.
Notation "x <? y" := (ltb x y) : num_scope.
Notation "x <=? y" := (leb x y) : num_scope.
Notation "x >? y" := (gtb x y) : num_scope.

(** *** IEEE-754 binary64 *)

(** An integer literal as a double; exact below [2^53] in magnitude, which
    covers every literal of the source. *)
Definition float_of_Z (z : Z) : float :=
  match z with
  | Z0 => PrimFloat.zero
  | Zpos _ => PrimFloat.of_uint63 (Uint63.of_Z z)
  | Zneg p => PrimFloat.opp (PrimFloat.of_uint63 (Uint63.of_Z (Zpos p)))
  end.

(** [Math.round] on a double (ECMA-262, 21.3.2.28): NaN, the infinities, the
    zeros and the integral doubles are returned as they are; otherwise the
    result is the integer [floor (x + 1/2)] of the exact sum, with the sign of
    [x] when that integer is zero.  A finite double is [(-1)^s * m * 2^e];
    with [e >= 0] it is integral, with [e < 0] it is below [2^52] in
    magnitude, so the integer is computed in [Z] and converts exactly. *)
Definition float_round (x : float) : float :=
  match Prim2SF x with
  | S754_finite s m e =>
      if (0 <=? e)%Z then x
      else
        let M := if s then Zneg m else Zpos m in
        let n := Z.shiftr (2 * M + Z.shiftl 1 (- e)) (- e + 1) in
        if (n =? 0)%Z then (if s then PrimFloat.neg_zero else PrimFloat.zero)
        else float_of_Z n
  | _ => x
  end.

#[global] Instance float_JSNumber : JSNumber float := {|
  lit := float_of_Z;
  add := PrimFloat.add;
  sub := PrimFloat.sub;
  mul := PrimFloat.mul;
  div := PrimFloat.div;
  ltb := PrimFloat.ltb;
  leb := PrimFloat.leb;
  Math_round := float_round
|}.

(** ** Types *)

Module HandleSide.
Inductive t : Type := left | right.

(** The text a template literal inserts for a side. *)
Definition to_string (s : t) : string :=
  match s with left => "left" | right => "right" end.
End HandleSide.

Record DoorConfig (num : Type) : Type := {
  doorWidth : num;
  doorHeight : num;
  topMargin : num;
  bottomMargin : num;
  leftMargin : num;
  rightMargin : num;
  horizontalGap : num;
  verticalGap : num;
  beadingWidth : num;
  mdfPanelWidth : num;
  topPanelRatio : num;
  handleSide : HandleSide.t;
  handleHeight : num;
  handleIndent : num;
  handleSpread : num
}.

Arguments Build_DoorConfig {num}.
Arguments doorWidth {num}.
Arguments doorHeight {num}.
Arguments topMargin {num}.
Arguments bottomMargin {num}.
Arguments leftMargin {num}.
Arguments rightMargin {num}.
Arguments horizontalGap {num}.
Arguments verticalGap {num}.
Arguments beadingWidth {num}.
Arguments mdfPanelWidth {num}.
Arguments topPanelRatio {num}.
Arguments handleSide {num}.
Arguments handleHeight {num}.
Arguments handleIndent {num}.
Arguments handleSpread {num}.

Record UnitPosition (num : Type) : Type := {
  label : string;
  beadingLeftX : num;
  beadingRightX : num;
  beadingY : num;
  pinX : num;
  pinY : num
}.

Arguments Build_UnitPosition {num}.
Arguments label {num}.
Arguments beadingLeftX {num}.
Arguments beadingRightX {num}.
Arguments beadingY {num}.
Arguments pinX {num}.
Arguments pinY {num}.

(** A template literal: its fixed text and the values it interpolates, in
    order.  [ToFixed1 v] stands for [v.toFixed(1)] and [ToString v] for the
    default conversion of a number. *)
Inductive piece (num : Type) : Type :=
  | Text (s : string)
  | ToFixed1 (v : num)
  | ToString (v : num).

Arguments Text {num}.
Arguments ToFixed1 {num}.
Arguments ToString {num}.

Definition message (num : Type) : Type := list (piece num).

(** The object [calculateCuts] returns.  Its keys live in a module of their
    own because several of them are also names of local constants of the
    function, which are definitions below. *)
Module CutResult.
Record t (num : Type) : Type := {
  panelWidth : num;
  topPanelHeight : num;
  bottomPanelHeight : num;
  topHorizontalBeading : num;
  topVerticalBeading : num;
  bottomHorizontalBeading : num;
  bottomVerticalBeading : num;
  topHorizontalBeadingShort : num;
  topVerticalBeadingShort : num;
  bottomHorizontalBeadingShort : num;
  bottomVerticalBeadingShort : num;
  panelBeadingGap : num;
  unitPositions : list (UnitPosition num);
  handleWarnings : list (message num);
  isValid : bool;
  errors : list string
}.

Arguments Build_t {num}.
Arguments panelWidth {num}.
Arguments topPanelHeight {num}.
Arguments bottomPanelHeight {num}.
Arguments topHorizontalBeading {num}.
Arguments topVerticalBeading {num}.
Arguments bottomHorizontalBeading {num}.
Arguments bottomVerticalBeading {num}.
Arguments topHorizontalBeadingShort {num}.
Arguments topVerticalBeadingShort {num}.
Arguments bottomHorizontalBeadingShort {num}.
Arguments bottomVerticalBeadingShort {num}.
Arguments panelBeadingGap {num}.
Arguments unitPositions {num}.
Arguments handleWarnings {num}.
Arguments isValid {num}.
Arguments errors {num}.
End CutResult.

(** ** The engine *)

Section Engine.

Context {num : Type} {N : JSNumber num}.
Local Open Scope string_scope.
Local Open Scope list_scope.
Local Open Scope num_scope.

Definition defaultConfig : DoorConfig num := {|
  doorWidth := lit 762;
  doorHeight := lit 1981;
  topMargin := lit 100;
  bottomMargin := lit 100;
  leftMargin := lit 80;
  rightMargin := lit 80;
  horizontalGap := lit 80;
  verticalGap := lit 80;
  beadingWidth := lit 20;
  mdfPanelWidth := lit 215;
  topPanelRatio := lit 40;
  handleSide := HandleSide.left;
  handleHeight := lit 1000;
  handleIndent := lit 55;
  handleSpread := lit 140
|}.

Variable c : DoorConfig num.

(** Available space inside margins. *)
Definition availableWidth : num :=
  c.(doorWidth) - c.(leftMargin) - c.(rightMargin) - c.(horizontalGap).
Definition availableHeight : num :=
  c.(doorHeight) - c.(topMargin) - c.(bottomMargin) - c.(verticalGap).

(** Each panel unit = beading + gap + panel + gap + beading. *)
Definition panelUnitWidth : num := availableWidth / lit 2.
Definition panelWidth : num := c.(mdfPanelWidth).

(** The gap between the MDF panel edge and the beading inner edge. *)
Definition panelBeadingGap : num :=
  (panelUnitWidth - lit 2 * c.(beadingWidth) - panelWidth) / lit 2.

Definition topUnitHeight : num := availableHeight * (c.(topPanelRatio) / lit 100).
Definition bottomUnitHeight : num :=
  availableHeight * ((lit 100 - c.(topPanelRatio)) / lit 100).
Definition topPanelHeight : num :=
  topUnitHeight - lit 2 * c.(beadingWidth) - lit 2 * panelBeadingGap.
Definition bottomPanelHeight : num :=
  bottomUnitHeight - lit 2 * c.(beadingWidth) - lit 2 * panelBeadingGap.

(** Long-point for 45-degree mitred beading. *)
Definition topHBeading : num := panelUnitWidth.
Definition topVBeading : num := topUnitHeight.
Definition botHBeading : num := panelUnitWidth.
Definition botVBeading : num := bottomUnitHeight.

Definition panelWidth_error : string :=
  "MDF panel width must be greater than 0.".
Definition panelBeadingGap_error : string :=
  "MDF panel is too wide for the available space — reduce panel width or increase door width/margins.".
Definition topPanelHeight_error : string :=
  "Top panel height is negative — adjust margins, gaps or ratio.".
Definition bottomPanelHeight_error : string :=
  "Bottom panel height is negative — adjust margins, gaps or ratio.".

(** [errors] starts empty and receives one [push] per failing test, in the
    order of the four [if] statements. *)
Definition errors : list string :=
  (if panelWidth <=? lit 0 then [panelWidth_error] else [])
  ++ (if panelBeadingGap <? lit 0 then [panelBeadingGap_error] else [])
  ++ (if topPanelHeight <=? lit 0 then [topPanelHeight_error] else [])
  ++ (if bottomPanelHeight <=? lit 0 then [bottomPanelHeight_error] else []).

(** Handle vs beading collision check. *)
Definition handleMargin : num :=
  match c.(handleSide) with
  | HandleSide.left => c.(leftMargin)
  | HandleSide.right => c.(rightMargin)
  end.

Definition handleTop : num := c.(handleHeight) - lit 80.
Definition handleBottom : num := c.(handleHeight) + lit 80.
Definition topUnitTop : num := c.(topMargin).
Definition topUnitBottom : num := c.(topMargin) + topUnitHeight.
Definition bottomUnitTop : num := c.(topMargin) + topUnitHeight + c.(verticalGap).
Definition bottomUnitBottom : num := bottomUnitTop + bottomUnitHeight.

Definition overlapsTop : bool :=
  (handleBottom >? topUnitTop) && (handleTop <? topUnitBottom).
Definition overlapsBottom : bool :=
  (handleBottom >? bottomUnitTop) && (handleTop <? bottomUnitBottom).

Definition overlap : num := c.(handleSpread) - handleMargin.

Definition handleWarning : message num :=
  [ Text "Handle hardware extends "; ToFixed1 overlap;
    Text " mm past the "; Text (HandleSide.to_string c.(handleSide));
    Text " margin into the beading zone. Increase the ";
    Text (HandleSide.to_string c.(handleSide));
    Text " margin to at least "; ToString c.(handleSpread);
    Text " mm or reduce handle spread." ].

Definition handleWarnings : list (message num) :=
  if c.(handleSpread) >? handleMargin then
    if overlapsTop || overlapsBottom then [handleWarning] else []
  else [].

(** Unit positions (absolute from door edges). *)
Definition colXs : list num :=
  [c.(leftMargin); c.(leftMargin) + panelUnitWidth + c.(horizontalGap)].
Definition rowYs : list num :=
  [c.(topMargin); c.(topMargin) + topUnitHeight + c.(verticalGap)].
Definition unitHs : list num := [topUnitHeight; bottomUnitHeight].
Definition labels : list string :=
  ["Top-Left"; "Top-Right"; "Bottom-Left"; "Bottom-Right"].

(** The body of the inner loop, for row [ri] and column [ci].  Both loops run
    over 0 and 1, so every index is inside its array and the defaults of
    [nth] are never returned. *)
Definition unitPosition (ri ci : nat) : UnitPosition num :=
  let lx := nth ci colXs (lit 0) in
  let rx := nth ci colXs (lit 0) + panelUnitWidth in
  let ty := nth ri rowYs (lit 0) in
  {| label := nth (ri * 2 + ci) labels "";
     beadingLeftX := Math_round (lx * lit 10) / lit 10;
     beadingRightX := Math_round (rx * lit 10) / lit 10;
     beadingY := Math_round (ty * lit 10) / lit 10;
     pinX := Math_round ((lx + panelUnitWidth / lit 2) * lit 10) / lit 10;
     pinY := Math_round ((ty + c.(beadingWidth) / lit 2) * lit 10) / lit 10 |}.

(** [for (ri = 0; ri < 2; ri++) for (ci = 0; ci < 2; ci++) push(...)]. *)
Definition unitPositions : list (UnitPosition num) :=
  flat_map (fun ri => map (fun ci => unitPosition ri ci) (seq 0 2)) (seq 0 2).

End Engine.

Section Result.

Context {num : Type} {N : JSNumber num}.
Local Open Scope num_scope.

(** [const r = (v) => Math.round(v * 10) / 10]. *)
Definition r (v : num) : num := Math_round (v * lit 10) / lit 10.

Definition calculateCuts (c : DoorConfig num) : CutResult.t num := {|
  CutResult.panelWidth := r (panelWidth c);
  CutResult.topPanelHeight := r (topPanelHeight c);
  CutResult.bottomPanelHeight := r (bottomPanelHeight c);
  CutResult.topHorizontalBeading := r (topHBeading c);
  CutResult.topVerticalBeading := r (topVBeading c);
  CutResult.bottomHorizontalBeading := r (botHBeading c);
  CutResult.bottomVerticalBeading := r (botVBeading c);
  CutResult.topHorizontalBeadingShort := r (topHBeading c - lit 2 * c.(beadingWidth));
  CutResult.topVerticalBeadingShort := r (topVBeading c - lit 2 * c.(beadingWidth));
  CutResult.bottomHorizontalBeadingShort := r (botHBeading c - lit 2 * c.(beadingWidth));
  CutResult.bottomVerticalBeadingShort := r (botVBeading c - lit 2 * c.(beadingWidth));
  CutResult.panelBeadingGap := r (panelBeadingGap c);
  CutResult.unitPositions := unitPositions c;
  CutResult.handleWarnings := handleWarnings c;
  CutResult.isValid := Nat.eqb (List.length (errors c)) 0;
  CutResult.errors := errors c
|}.

End Result.

(** ** Editing a configuration

    The editor replaces one key at a time ([{ ...config, [key]: value }]); the
    updates the statements below need are written out. *)

Section Update.

Context {num : Type}.

Definition with_mdfPanelWidth (c : DoorConfig num) (w : num) : DoorConfig num :=
  {| doorWidth := c.(doorWidth); doorHeight := c.(doorHeight);
     topMargin := c.(topMargin); bottomMargin := c.(bottomMargin);
     leftMargin := c.(leftMargin); rightMargin := c.(rightMargin);
     horizontalGap := c.(horizontalGap); verticalGap := c.(verticalGap);
     beadingWidth := c.(beadingWidth); mdfPanelWidth := w;
     topPanelRatio := c.(topPanelRatio); handleSide := c.(handleSide);
     handleHeight := c.(handleHeight); handleIndent := c.(handleIndent);
     handleSpread := c.(handleSpread) |}.

Definition with_handleIndent (c : DoorConfig num) (v : num) : DoorConfig num :=
  {| doorWidth := c.(doorWidth); doorHeight := c.(doorHeight);
     topMargin := c.(topMargin); bottomMargin := c.(bottomMargin);
     leftMargin := c.(leftMargin); rightMargin := c.(rightMargin);
     horizontalGap := c.(horizontalGap); verticalGap := c.(verticalGap);
     beadingWidth := c.(beadingWidth); mdfPanelWidth := c.(mdfPanelWidth);
     topPanelRatio := c.(topPanelRatio); handleSide := c.(handleSide);
     handleHeight := c.(handleHeight); handleIndent := v;
     handleSpread := c.(handleSpread) |}.

(** All four handle keys at once. *)
Definition with_handle (c : DoorConfig num)
    (side : HandleSide.t) (height indent spread : num) : DoorConfig num :=
  {| doorWidth := c.(doorWidth); doorHeight := c.(doorHeight);
     topMargin := c.(topMargin); bottomMargin := c.(bottomMargin);
     leftMargin := c.(leftMargin); rightMargin := c.(rightMargin);
     horizontalGap := c.(horizontalGap); verticalGap := c.(verticalGap);
     beadingWidth := c.(beadingWidth); mdfPanelWidth := c.(mdfPanelWidth);
     topPanelRatio := c.(topPanelRatio); handleSide := side;
     handleHeight := height; handleIndent := indent;
     handleSpread := spread |}.

(** Two configurations that differ at most in [handleIndent]. *)
Definition agree_except_handleIndent (c1 c2 : DoorConfig num) : Prop :=
  c1.(doorWidth) = c2.(doorWidth) /\ c1.(doorHeight) = c2.(doorHeight)
  /\ c1.(topMargin) = c2.(topMargin) /\ c1.(bottomMargin) = c2.(bottomMargin)
  /\ c1.(leftMargin) = c2.(leftMargin) /\ c1.(rightMargin) = c2.(rightMargin)
  /\ c1.(horizontalGap) = c2.(horizontalGap)
  /\ c1.(verticalGap) = c2.(verticalGap)
  /\ c1.(beadingWidth) = c2.(beadingWidth)
  /\ c1.(mdfPanelWidth) = c2.(mdfPanelWidth)
  /\ c1.(topPanelRatio) = c2.(topPanelRatio)
  /\ c1.(handleSide) = c2.(handleSide)
  /\ c1.(handleHeight) = c2.(handleHeight)
  /\ c1.(handleSpread) = c2.(handleSpread).

End Update.

(** ** Configurations used as examples

    Each changes a few keys of [defaultConfig]; a value that is not an integer
    is written as the quotient the literal denotes. *)

Section Examples.

Context {num : Type} {N : JSNumber num}.
Local Open Scope num_scope.

(** [verticalGap] 181, [topPanelRatio] 50, [handleHeight] 980: the rows are
    both 800 high, the top row ends at 900 and the handle band starts there. *)
Definition touchingHandleConfig : DoorConfig num := {|
  doorWidth := lit 762; doorHeight := lit 1981;
  topMargin := lit 100; bottomMargin := lit 100;
  leftMargin := lit 80; rightMargin := lit 80;
  horizontalGap := lit 80; verticalGap := lit 181;
  beadingWidth := lit 20; mdfPanelWidth := lit 215; topPanelRatio := lit 50;
  handleSide := HandleSide.left; handleHeight := lit 980;
  handleIndent := lit 55; handleSpread := lit 140 |}.

(** [handleHeight] 820: the handle band, 740 to 900, reaches into both rows. *)
Definition bothRowsHandleConfig : DoorConfig num := {|
  doorWidth := lit 762; doorHeight := lit 1981;
  topMargin := lit 100; bottomMargin := lit 100;
  leftMargin := lit 80; rightMargin := lit 80;
  horizontalGap := lit 80; verticalGap := lit 80;
  beadingWidth := lit 20; mdfPanelWidth := lit 215; topPanelRatio := lit 40;
  handleSide := HandleSide.left; handleHeight := lit 820;
  handleIndent := lit 55; handleSpread := lit 140 |}.


(** [doorHeight] 1989: every key is an integer, the bottom row is 1025.4 high. *)
Definition door1989Config : DoorConfig num := {|
  doorWidth := lit 762; doorHeight := lit 1989;
  topMargin := lit 100; bottomMargin := lit 100;
  leftMargin := lit 80; rightMargin := lit 80;
  horizontalGap := lit 80; verticalGap := lit 80;
  beadingWidth := lit 20; mdfPanelWidth := lit 215; topPanelRatio := lit 40;
  handleSide := HandleSide.left; handleHeight := lit 1000;
  handleIndent := lit 55; handleSpread := lit 140 |}.

(** [mdfPanelWidth] chosen so that the panel-beading gap is -0.01. *)
Definition tightPanelConfig : DoorConfig num := {|
  doorWidth := lit 762; doorHeight := lit 1981;
  topMargin := lit 100; bottomMargin := lit 100;
  leftMargin := lit 80; rightMargin := lit 80;
  horizontalGap := lit 80; verticalGap := lit 80;
  beadingWidth := lit 20; mdfPanelWidth := lit 22102 / lit 100;
  topPanelRatio := lit 40;
  handleSide := HandleSide.left; handleHeight := lit 1000;
  handleIndent := lit 55; handleSpread := lit 140 |}.

(** [topPanelRatio] 15: the rows are 255.15 and 1445.85 high. *)
Definition ratio15Config : DoorConfig num := {|
  doorWidth := lit 762; doorHeight := lit 1981;
  topMargin := lit 100; bottomMargin := lit 100;
  leftMargin := lit 80; rightMargin := lit 80;
  horizontalGap := lit 80; verticalGap := lit 80;
  beadingWidth := lit 20; mdfPanelWidth := lit 215; topPanelRatio := lit 15;
  handleSide := HandleSide.left; handleHeight := lit 1000;
  handleIndent := lit 55; handleSpread := lit 140 |}.

(** [doorHeight] 501 and [topPanelRatio] 35: the top row is 77.35 high. *)
Definition door501Config : DoorConfig num := {|
  doorWidth := lit 762; doorHeight := lit 501;
  topMargin := lit 100; bottomMargin := lit 100;
  leftMargin := lit 80; rightMargin := lit 80;
  horizontalGap := lit 80; verticalGap := lit 80;
  beadingWidth := lit 20; mdfPanelWidth := lit 215; topPanelRatio := lit 35;
  handleSide := HandleSide.left; handleHeight := lit 1000;
  handleIndent := lit 55; handleSpread := lit 140 |}.

(** [bottomMargin] 264, [topPanelRatio] 20, [handleHeight] 1797: the bottom
    row ends at 1717, where the handle band starts. *)
Definition roundedSpanConfig : DoorConfig num := {|
  doorWidth := lit 762; doorHeight := lit 1981;
  topMargin := lit 100; bottomMargin := lit 264;
  leftMargin := lit 80; rightMargin := lit 80;
  horizontalGap := lit 80; verticalGap := lit 80;
  beadingWidth := lit 20; mdfPanelWidth := lit 215; topPanelRatio := lit 20;
  handleSide := HandleSide.left; handleHeight := lit 1797;
  handleIndent := lit 55; handleSpread := lit 140 |}.

End Examples.

(** The closed intervals [[a, b]] and [[c, d]] share a point, as doubles
    compare. *)
Definition closed_intervals_meet (a b c d : float) : Prop :=
  exists y : float,
    (PrimFloat.leb a y = true /\ PrimFloat.leb y b = true)
    /\ (PrimFloat.leb c y = true /\ PrimFloat.leb y d = true).

(** Proves [x <> y] for two doubles that [===] evaluates as different. *)
Ltac float_differ :=
  match goal with
  | |- ?x <> ?y =>
      let E := fresh "E" in
      intro E; apply (f_equal (fun z => PrimFloat.eqb z y)) in E;
      vm_compute in E; discriminate E
  end.

(** ** Rounding, as the language defines it *)

(** The integer [Math.round] returns for a finite double below [2^52] in
    magnitude.  Such a double is [M / 2^k] exactly, for an integer [M] and a
    positive [k]; the result is the floor of that value plus one half: the
    nearest integer, the larger one on a tie. *)
Definition nearest_integer (M : Z) (k : Z) : Z :=
  Qfloor ((M # Z.to_pos (2 ^ k)) + (1 # 2)).

(** [t] is [Math.round(x)] in the words of ECMA-262: [x] itself when it is
    NaN, infinite, a zero or an integer; else the nearest integer, halves
    going up, and a zero of the sign of [x] when that integer is zero. *)
Definition is_Math_round (x t : float) : Prop :=
  match Prim2SF x with
  | S754_finite s m e =>
      if (0 <=? e)%Z then t = x
      else
        let n := nearest_integer (if s then Zneg m else Zpos m) (- e) in
        if (n =? 0)%Z
        then t = (if s then PrimFloat.neg_zero else PrimFloat.zero)
        else t = float_of_Z n
  | _ => t = x
  end.

(** [v] is [x] rounded to one decimal place, as doubles allow it: the
    quotient by ten of [Math.round] of the product by ten. *)
Definition rounded_to_tenth (x v : float) : Prop :=
  exists t : float, is_Math_round (x * 10)%float t /\ v = (t / 10)%float.

(** ** Integer inputs

    The sliders of the editor deliver integers.  On doubles that hold small
    integers the sums and halves of the engine are exact, which is checked
    here by running every case. *)

(** [x] holds an integer between [lo] and [hi]. *)
Definition is_int_in (lo hi : Z) (x : float) : Prop :=
  exists z : Z, (lo <= z <= hi)%Z /\ x = float_of_Z z.

Fixpoint zrange_from (n : nat) (a : Z) : list Z :=
  match n with
  | O => []
  | S n' => a :: zrange_from n' (a + 1)
  end.

(** The integers from [lo] to [hi]. *)
Definition zrange (lo hi : Z) : list Z :=
  zrange_from (Z.to_nat (hi - lo + 1)) lo.

Definition all2 (la lb : list Z) (f : Z -> Z -> bool) : bool :=
  forallb (fun a => forallb (f a) lb) la.

(** The double of [n / 2]. *)
Definition half_of (n : Z) : float := (float_of_Z n / float_of_Z 2)%float.

Definition sub_exact_check (a b : Z) : bool :=
  PrimFloat.Leibniz.eqb (float_of_Z a - float_of_Z b)%float
    (float_of_Z (a - b)).

Definition double_check (b : Z) : bool :=
  PrimFloat.Leibniz.eqb (float_of_Z 2 * float_of_Z b)%float
    (float_of_Z (2 * b)).

Definition half_sub_check (n b : Z) : bool :=
  PrimFloat.Leibniz.eqb (half_of n - float_of_Z b)%float
    (half_of (n - 2 * b)).



Definition int_add_half_check (a q : Z) : bool :=
  PrimFloat.Leibniz.eqb (float_of_Z a + half_of (q - 2 * a))%float
    (half_of q).

Definition half_add_int_check (n b : Z) : bool :=
  PrimFloat.Leibniz.eqb (half_of n + float_of_Z b)%float
    (half_of (n + 2 * b)).

Definition half_add_half_check (k n : Z) : bool :=
  PrimFloat.Leibniz.eqb (half_of (n + 2 * k) + half_of n)%float
    (float_of_Z (n + k)).

Definition double_quarter_check (m : Z) : bool :=
  PrimFloat.Leibniz.eqb (float_of_Z 2 * (half_of m / float_of_Z 2))%float
    (half_of m).

(** [r] on an integer, on a half and on a quarter of an integer: the last
    is the quotient by ten of the integer nearest to [10 * m / 4], halves
    going up, which is [floor ((5 * m + 1) / 2)]. *)
Definition r_int_check (w : Z) : bool :=
  PrimFloat.Leibniz.eqb (r (float_of_Z w)) (float_of_Z w).

Definition r_half_check (n : Z) : bool :=
  PrimFloat.Leibniz.eqb (r (half_of n)) (half_of n).

Definition r_quarter_check (m : Z) : bool :=
  PrimFloat.Leibniz.eqb (r (half_of m / float_of_Z 2)%float)
    (float_of_Z ((5 * m + 1) / 2) / float_of_Z 10)%float.

(** The row-sum test for an available height [ah] and a ratio [p], written
    with the expressions of the engine. *)
Definition row_sum_check (ah p : Z) : bool :=
  let a := float_of_Z ah in
  let t := (a * (float_of_Z p / float_of_Z 100))%float in
  let b := (a * ((float_of_Z 100 - float_of_Z p) / float_of_Z 100))%float in
  PrimFloat.leb (PrimFloat.abs (r t + r b - a)%float) 0.100000000001%float.

(** ** The zoom of the preview *)

(** [Math.max(x, y)] (ECMA-262, 21.3.2.24): NaN when an operand is NaN, else
    the larger operand, [+0] counting as larger than [-0]. *)
Definition Math_max (x y : float) : float :=
  if PrimFloat.is_nan x || PrimFloat.is_nan y then PrimFloat.nan
  else if PrimFloat.ltb x y then y
  else if PrimFloat.ltb y x then x
  else match PrimFloat.classify x with NZero => y | _ => x end.

(** [Math.min(x, y)] (ECMA-262, 21.3.2.25): NaN when an operand is NaN, else
    the smaller operand, [-0] counting as smaller than [+0]. *)
Definition Math_min (x y : float) : float :=
  if PrimFloat.is_nan x || PrimFloat.is_nan y then PrimFloat.nan
  else if PrimFloat.ltb x y then x
  else if PrimFloat.ltb y x then y
  else match PrimFloat.classify x with PZero => y | _ => x end.

(** [handleWheel] of [DoorPreview]:
    [setZoom((z) => Math.min(Math.max(z * delta, 0.5), 8))] with
    [delta = e.deltaY > 0 ? 0.9 : 1.1]. *)
Definition handleWheel (deltaY : float) (z : float) : float :=
  let delta := if PrimFloat.ltb 0 deltaY then 0.9%float else 1.1%float in
  Math_min (Math_max (z * delta) 0.5) 8.

(** What changes the zoom: a wheel event, or a double click, which resets
    it. *)
Inductive ZoomEvent : Type :=
  | Wheel (deltaY : float)
  | DoubleClick.

Definition zoomStep (z : float) (e : ZoomEvent) : float :=
  match e with
  | Wheel deltaY => handleWheel deltaY z
  | DoubleClick => 1%float
  end.

(** The zoom lies between 0.5 and 8, as [<=] decides it on doubles; a NaN
    does not. *)
Definition zoom_in_range (z : float) : Prop :=
  PrimFloat.leb 0.5 z = true /\ PrimFloat.leb z 8 = true.

(** A double that is not a NaN, in its specification form. *)
Definition SF_number (x : spec_float) : bool :=
  match x with S754_nan => false | _ => true end.

(** ** Local storage *)

(** The browser's [localStorage]: string keys with string values, one value
    per key, in the order [key(i)] enumerates them.  [storage], the typed
    wrapper of the application, is written over it. *)
Module LocalStorage.

Definition t : Type := list (string * string).

Definition getItem (k : string) (s : t) : option string :=
  match find (fun e => String.eqb (fst e) k) s with
  | Some e => Some (snd e)
  | None => None
  end.

(** An existing key keeps its place and takes the new value; a new key is
    added at the end. *)
Fixpoint setItem (k v : string) (s : t) : t :=
  match s with
  | [] => [(k, v)]
  | e :: s' => if String.eqb (fst e) k then (k, v) :: s' else e :: setItem k v s'
  end.

Definition removeItem (k : string) (s : t) : t :=
  filter (fun e => negb (String.eqb (fst e) k)) s.

Definition length (s : t) : nat := List.length s.

Definition key (i : nat) (s : t) : option string :=
  option_map fst (nth_error s i).

End LocalStorage.

Definition STORAGE_PREFIX : string := "shepherds-power-tools::"%string.

(** [s.slice(n)] for [n >= 0]: [s] without its first [n] characters. *)
Fixpoint slice (n : nat) (s : string) : string :=
  match n, s with
  | O, _ => s
  | S n', String _ s' => slice n' s'
  | S _, EmptyString => EmptyString
  end.

Section Storage.

(** [JSON.stringify] and [JSON.parse] at the type [T] of the stored values;
    [parse] is [None] where [JSON.parse] throws.  The source casts what
    [JSON.parse] returns to [T] without a check, so [parse] stands for the
    texts that do hold a [T].  [accepts] tells whether the browser takes a
    write ([setItem] throws when the quota is exceeded, and [storage.set]
    catches that). *)
Context {T : Type}.
Variable stringify : T -> string.
Variable parse : string -> option T.
Variable accepts : LocalStorage.t -> bool.

Definition storage_get (key : string) (defaultValue : T) (ls : LocalStorage.t) : T :=
  match LocalStorage.getItem (STORAGE_PREFIX ++ key)%string ls with
  | None => defaultValue
  | Some raw =>
      match parse raw with
      | Some v => v
      | None => defaultValue
      end
  end.

Definition storage_set (key : string) (value : T) (ls : LocalStorage.t) : LocalStorage.t :=
  let ls' := LocalStorage.setItem (STORAGE_PREFIX ++ key)%string (stringify value) ls in
  if accepts ls' then ls' else ls.

End Storage.

Section StorageKeys.

Local Open Scope string_scope.
Local Open Scope list_scope.

Definition storage_remove (key : string) (ls : LocalStorage.t) : LocalStorage.t :=
  LocalStorage.removeItem (STORAGE_PREFIX ++ key)%string ls.

(** The loop over [localStorage.key(i)], [i] from 0 below [length]. *)
Definition storage_keys (ls : LocalStorage.t) : list string :=
  let prefix := STORAGE_PREFIX in
  flat_map
    (fun i =>
       match LocalStorage.key i ls with
       | Some key =>
           if String.prefix prefix key then [slice (String.length prefix) key]
           else []
       | None => []
       end)
    (seq 0 (LocalStorage.length ls)).

Definition storage_clear (ls : LocalStorage.t) : LocalStorage.t :=
  let keysToRemove := storage_keys ls in
  fold_left (fun ls key => storage_remove key ls) keysToRemove ls.

End StorageKeys.

(** ** Doors and pages *)

(** [xs.find(p) ?? xs[0]]: the first element that satisfies [p], else the
    first element; [None] stands for [undefined], on an empty array. *)
Definition find_or_first {A : Type} (p : A -> bool) (xs : list A) : option A :=
  match find p xs with
  | Some x => Some x
  | None => nth_error xs 0
  end.

Module Guide.
(** [DiagnosticGuide] without [null], which is [None] below. *)
Inductive t : Type :=
  dimensions | margins | gaps | beading | ratio | handle | overlay.
End Guide.

Section Guides.

Local Open Scope string_scope.
Local Open Scope list_scope.

Definition keyToGuide : list (string * Guide.t) :=
  [ ("doorWidth", Guide.dimensions); ("doorHeight", Guide.dimensions);
    ("topMargin", Guide.margins); ("bottomMargin", Guide.margins);
    ("leftMargin", Guide.margins); ("rightMargin", Guide.margins);
    ("horizontalGap", Guide.gaps); ("verticalGap", Guide.gaps);
    ("beadingWidth", Guide.beading); ("mdfPanelWidth", Guide.beading);
    ("topPanelRatio", Guide.ratio);
    ("handleSide", Guide.handle); ("handleHeight", Guide.handle);
    ("handleIndent", Guide.handle); ("handleSpread", Guide.handle) ].

(** [keyToGuide[key] ?? null]. *)
Definition guideOf (key : string) : option Guide.t :=
  match find (fun e => String.eqb (fst e) key) keyToGuide with
  | Some e => Some (snd e)
  | None => None
  end.

End Guides.

Module Key.
(** [keyof DoorConfig]. *)
Inductive t : Type :=
  | doorWidth | doorHeight | topMargin | bottomMargin | leftMargin
  | rightMargin | horizontalGap | verticalGap | beadingWidth | mdfPanelWidth
  | topPanelRatio | handleSide | handleHeight | handleIndent | handleSpread.

Definition name (k : t) : string :=
  match k with
  | doorWidth => "doorWidth" | doorHeight => "doorHeight"
  | topMargin => "topMargin" | bottomMargin => "bottomMargin"
  | leftMargin => "leftMargin" | rightMargin => "rightMargin"
  | horizontalGap => "horizontalGap" | verticalGap => "verticalGap"
  | beadingWidth => "beadingWidth" | mdfPanelWidth => "mdfPanelWidth"
  | topPanelRatio => "topPanelRatio" | handleSide => "handleSide"
  | handleHeight => "handleHeight" | handleIndent => "handleIndent"
  | handleSpread => "handleSpread"
  end.

(** [DoorConfig[K]]. *)
Definition value (num : Type) (k : t) : Type :=
  match k with handleSide => HandleSide.t | _ => num end.
End Key.

Module SavedDoor.
Record t (num : Type) : Type := {
  id : string;
  name : string;
  config : DoorConfig num
}.
Arguments Build_t {num}.
Arguments id {num}.
Arguments name {num}.
Arguments config {num}.
End SavedDoor.

Section Doors.

Context {num : Type}.
Local Open Scope string_scope.
Local Open Scope list_scope.

(** [c[key]]. *)
Definition get_key (k : Key.t) (c : DoorConfig num) : Key.value num k :=
  match k with
  | Key.doorWidth => c.(doorWidth) | Key.doorHeight => c.(doorHeight)
  | Key.topMargin => c.(topMargin) | Key.bottomMargin => c.(bottomMargin)
  | Key.leftMargin => c.(leftMargin) | Key.rightMargin => c.(rightMargin)
  | Key.horizontalGap => c.(horizontalGap)
  | Key.verticalGap => c.(verticalGap)
  | Key.beadingWidth => c.(beadingWidth)
  | Key.mdfPanelWidth => c.(mdfPanelWidth)
  | Key.topPanelRatio => c.(topPanelRatio)
  | Key.handleSide => c.(handleSide)
  | Key.handleHeight => c.(handleHeight)
  | Key.handleIndent => c.(handleIndent)
  | Key.handleSpread => c.(handleSpread)
  end.

(** [{ ...c, [key]: value }]. *)
Definition set_key (k : Key.t) : Key.value num k -> DoorConfig num -> DoorConfig num :=
  match k with
  | Key.doorWidth => fun v c =>
      Build_DoorConfig v c.(doorHeight) c.(topMargin) c.(bottomMargin)
        c.(leftMargin) c.(rightMargin) c.(horizontalGap) c.(verticalGap)
        c.(beadingWidth) c.(mdfPanelWidth) c.(topPanelRatio) c.(handleSide)
        c.(handleHeight) c.(handleIndent) c.(handleSpread)
  | Key.doorHeight => fun v c =>
      Build_DoorConfig c.(doorWidth) v c.(topMargin) c.(bottomMargin)
        c.(leftMargin) c.(rightMargin) c.(horizontalGap) c.(verticalGap)
        c.(beadingWidth) c.(mdfPanelWidth) c.(topPanelRatio) c.(handleSide)
        c.(handleHeight) c.(handleIndent) c.(handleSpread)
  | Key.topMargin => fun v c =>
      Build_DoorConfig c.(doorWidth) c.(doorHeight) v c.(bottomMargin)
        c.(leftMargin) c.(rightMargin) c.(horizontalGap) c.(verticalGap)
        c.(beadingWidth) c.(mdfPanelWidth) c.(topPanelRatio) c.(handleSide)
        c.(handleHeight) c.(handleIndent) c.(handleSpread)
  | Key.bottomMargin => fun v c =>
      Build_DoorConfig c.(doorWidth) c.(doorHeight) c.(topMargin) v
        c.(leftMargin) c.(rightMargin) c.(horizontalGap) c.(verticalGap)
        c.(beadingWidth) c.(mdfPanelWidth) c.(topPanelRatio) c.(handleSide)
        c.(handleHeight) c.(handleIndent) c.(handleSpread)
  | Key.leftMargin => fun v c =>
      Build_DoorConfig c.(doorWidth) c.(doorHeight) c.(topMargin)
        c.(bottomMargin) v c.(rightMargin) c.(horizontalGap) c.(verticalGap)
        c.(beadingWidth) c.(mdfPanelWidth) c.(topPanelRatio) c.(handleSide)
        c.(handleHeight) c.(handleIndent) c.(handleSpread)
  | Key.rightMargin => fun v c =>
      Build_DoorConfig c.(doorWidth) c.(doorHeight) c.(topMargin)
        c.(bottomMargin) c.(leftMargin) v c.(horizontalGap) c.(verticalGap)
        c.(beadingWidth) c.(mdfPanelWidth) c.(topPanelRatio) c.(handleSide)
        c.(handleHeight) c.(handleIndent) c.(handleSpread)
  | Key.horizontalGap => fun v c =>
      Build_DoorConfig c.(doorWidth) c.(doorHeight) c.(topMargin)
        c.(bottomMargin) c.(leftMargin) c.(rightMargin) v c.(verticalGap)
        c.(beadingWidth) c.(mdfPanelWidth) c.(topPanelRatio) c.(handleSide)
        c.(handleHeight) c.(handleIndent) c.(handleSpread)
  | Key.verticalGap => fun v c =>
      Build_DoorConfig c.(doorWidth) c.(doorHeight) c.(topMargin)
        c.(bottomMargin) c.(leftMargin) c.(rightMargin) c.(horizontalGap) v
        c.(beadingWidth) c.(mdfPanelWidth) c.(topPanelRatio) c.(handleSide)
        c.(handleHeight) c.(handleIndent) c.(handleSpread)
  | Key.beadingWidth => fun v c =>
      Build_DoorConfig c.(doorWidth) c.(doorHeight) c.(topMargin)
        c.(bottomMargin) c.(leftMargin) c.(rightMargin) c.(horizontalGap)
        c.(verticalGap) v c.(mdfPanelWidth) c.(topPanelRatio) c.(handleSide)
        c.(handleHeight) c.(handleIndent) c.(handleSpread)
  | Key.mdfPanelWidth => fun v c => with_mdfPanelWidth c v
  | Key.topPanelRatio => fun v c =>
      Build_DoorConfig c.(doorWidth) c.(doorHeight) c.(topMargin)
        c.(bottomMargin) c.(leftMargin) c.(rightMargin) c.(horizontalGap)
        c.(verticalGap) c.(beadingWidth) c.(mdfPanelWidth) v c.(handleSide)
        c.(handleHeight) c.(handleIndent) c.(handleSpread)
  | Key.handleSide => fun v c =>
      Build_DoorConfig c.(doorWidth) c.(doorHeight) c.(topMargin)
        c.(bottomMargin) c.(leftMargin) c.(rightMargin) c.(horizontalGap)
        c.(verticalGap) c.(beadingWidth) c.(mdfPanelWidth) c.(topPanelRatio) v
        c.(handleHeight) c.(handleIndent) c.(handleSpread)
  | Key.handleHeight => fun v c =>
      Build_DoorConfig c.(doorWidth) c.(doorHeight) c.(topMargin)
        c.(bottomMargin) c.(leftMargin) c.(rightMargin) c.(horizontalGap)
        c.(verticalGap) c.(beadingWidth) c.(mdfPanelWidth) c.(topPanelRatio)
        c.(handleSide) v c.(handleIndent) c.(handleSpread)
  | Key.handleIndent => fun v c => with_handleIndent c v
  | Key.handleSpread => fun v c =>
      Build_DoorConfig c.(doorWidth) c.(doorHeight) c.(topMargin)
        c.(bottomMargin) c.(leftMargin) c.(rightMargin) c.(horizontalGap)
        c.(verticalGap) c.(beadingWidth) c.(mdfPanelWidth) c.(topPanelRatio)
        c.(handleSide) c.(handleHeight) c.(handleIndent) v
  end.

(** The state of [DoorCalculator] that its door handlers read and write. *)
Record DoorsState : Type := {
  doors : list (SavedDoor.t num);
  activeDoorId : string;
  editingName : option string;
  editNameValue : string;
  activeGuide : option Guide.t
}.

Definition ids (ds : list (SavedDoor.t num)) : list string :=
  map SavedDoor.id ds.

(** [doors.find((d) => d.id === activeDoorId) ?? doors[0]]. *)
Definition activeDoor (st : DoorsState) : option (SavedDoor.t num) :=
  find_or_first (fun d => String.eqb d.(SavedDoor.id) st.(activeDoorId))
    st.(doors).

(** The handlers are closures of one render, which needs [activeDoor]: they
    are [None] where [activeDoor] is [undefined] and reading its [config] or
    [id] throws.  An updater [setDoors((prev) => ...)] runs on the doors of
    that render. *)
Definition update (k : Key.t) (v : Key.value num k) (st : DoorsState)
    : option DoorsState :=
  match activeDoor st with
  | None => None
  | Some ad =>
      Some {| doors :=
                map (fun d =>
                       if String.eqb d.(SavedDoor.id) ad.(SavedDoor.id)
                       then {| SavedDoor.id := d.(SavedDoor.id);
                               SavedDoor.name := d.(SavedDoor.name);
                               SavedDoor.config :=
                                 set_key k v d.(SavedDoor.config) |}
                       else d)
                    st.(doors);
              activeDoorId := st.(activeDoorId);
              editingName := st.(editingName);
              editNameValue := st.(editNameValue);
              activeGuide := guideOf (Key.name k) |}
  end.

(** A count as a template literal prints it. *)
Definition nat_to_string (n : nat) : string :=
  NilEmpty.string_of_uint (Nat.to_uint n).

(** [uuid] is the value of [crypto.randomUUID()]. *)
Definition addDoor (uuid : string) (st : DoorsState) : option DoorsState :=
  match activeDoor st with
  | None => None
  | Some ad =>
      let newDoor :=
        {| SavedDoor.id := uuid;
           SavedDoor.name :=
             "Door " ++ nat_to_string (List.length st.(doors) + 1);
           SavedDoor.config := ad.(SavedDoor.config) |} in
      Some {| doors := st.(doors) ++ [newDoor];
              activeDoorId := newDoor.(SavedDoor.id);
              editingName := st.(editingName);
              editNameValue := st.(editNameValue);
              activeGuide := st.(activeGuide) |}
  end.

(** [next[0].id] throws on an empty [next]. *)
Definition deleteDoor (id : string) (st : DoorsState) : option DoorsState :=
  if (List.length st.(doors) <=? 1)%nat then Some st
  else
    let next :=
      filter (fun d => negb (String.eqb d.(SavedDoor.id) id)) st.(doors) in
    if String.eqb st.(activeDoorId) id then
      match next with
      | [] => None
      | d :: _ =>
          Some {| doors := next;
                  activeDoorId := d.(SavedDoor.id);
                  editingName := st.(editingName);
                  editNameValue := st.(editNameValue);
                  activeGuide := st.(activeGuide) |}
      end
    else
      Some {| doors := next;
              activeDoorId := st.(activeDoorId);
              editingName := st.(editingName);
              editNameValue := st.(editNameValue);
              activeGuide := st.(activeGuide) |}.

(** [onClick={() => setActiveDoorId(door.id)}] on the row of a door. *)
Definition selectDoor (id : string) (st : DoorsState) : DoorsState :=
  {| doors := st.(doors);
     activeDoorId := id;
     editingName := st.(editingName);
     editNameValue := st.(editNameValue);
     activeGuide := st.(activeGuide) |}.

Definition startRename (door : SavedDoor.t num) (st : DoorsState) : DoorsState :=
  {| doors := st.(doors);
     activeDoorId := st.(activeDoorId);
     editingName := Some door.(SavedDoor.id);
     editNameValue := door.(SavedDoor.name);
     activeGuide := st.(activeGuide) |}.

(** A string is truthy when it is not empty. *)
Definition truthy (s : string) : bool := negb (String.eqb s "").

(** [trim] is [String.prototype.trim]. *)
Variable trim : string -> string.

Definition commitRename (st : DoorsState) : DoorsState :=
  let renamed :=
    match st.(editingName) with
    | Some editing =>
        if truthy editing && truthy (trim st.(editNameValue)) then
          map (fun d =>
                 if String.eqb d.(SavedDoor.id) editing
                 then {| SavedDoor.id := d.(SavedDoor.id);
                         SavedDoor.name := trim st.(editNameValue);
                         SavedDoor.config := d.(SavedDoor.config) |}
                 else d)
              st.(doors)
        else st.(doors)
    | None => st.(doors)
    end in
  {| doors := renamed;
     activeDoorId := st.(activeDoorId);
     editingName := None;
     editNameValue := st.(editNameValue);
     activeGuide := st.(activeGuide) |}.

(** What a user can do with the door list.  [Delete] and [Select] carry the
    id of the row they were clicked on. *)
Inductive DoorEvent : Type :=
  | Update (k : Key.t) (v : Key.value num k)
  | AddDoor (uuid : string)
  | DeleteDoor (id : string)
  | SelectDoor (id : string)
  | StartRename (door : SavedDoor.t num)
  | CommitRename.

Definition doorStep (st : DoorsState) (e : DoorEvent) : option DoorsState :=
  match e with
  | Update k v => update k v st
  | AddDoor uuid => addDoor uuid st
  | DeleteDoor id => deleteDoor id st
  | SelectDoor id => Some (selectDoor id st)
  | StartRename door => Some (startRename door st)
  | CommitRename => Some (commitRename st)
  end.

(** The events the page can deliver in a state: a new id is not in use, and a
    row that is clicked belongs to a door of the list. *)
Definition deliverable (st : DoorsState) (e : DoorEvent) : Prop :=
  match e with
  | AddDoor uuid => ~ In uuid (ids st.(doors))
  | DeleteDoor id | SelectDoor id => In id (ids st.(doors))
  | StartRename door => In door st.(doors)
  | Update _ _ | CommitRename => True
  end.

(** The doors are not empty, their ids are distinct, and the active id is
    one of them. *)
Definition doors_ok (st : DoorsState) : Prop :=
  st.(doors) <> [] /\ NoDup (ids st.(doors))
  /\ In st.(activeDoorId) (ids st.(doors)).

(** A sequence of events, each handled in the state the previous one left;
    [None] as soon as a handler throws. *)
Fixpoint doorRun (st : DoorsState) (es : list DoorEvent) : option DoorsState :=
  match es with
  | [] => Some st
  | e :: es' =>
      match doorStep st e with
      | Some st' => doorRun st' es'
      | None => None
      end
  end.

(** Every event of the sequence is deliverable in the state it arrives in. *)
Fixpoint deliverable_run (st : DoorsState) (es : list DoorEvent) : Prop :=
  match es with
  | [] => True
  | e :: es' =>
      deliverable st e
      /\ forall st', doorStep st e = Some st' -> deliverable_run st' es'
  end.

End Doors.

Arguments DoorsState num : clear implicits.
Arguments DoorEvent num : clear implicits.

Section InitialDoors.

Context {num : Type} {N : JSNumber num}.
Local Open Scope string_scope.
Local Open Scope list_scope.

(** [uuid] is the value of [crypto.randomUUID()]. *)
Definition createDoor (uuid : string) (name : string) : SavedDoor.t num :=
  {| SavedDoor.id := uuid; SavedDoor.name := name;
     SavedDoor.config := defaultConfig |}.

Definition initialDoors (uuid : string) : list (SavedDoor.t num) :=
  [createDoor uuid "Door 1"].

(** The state of a first start, with nothing in local storage. *)
Definition initialDoorsState (uuid : string) : DoorsState num :=
  {| doors := initialDoors uuid;
     activeDoorId :=
       match initialDoors uuid with
       | d :: _ => d.(SavedDoor.id)
       | [] => ""
       end;
     editingName := None;
     editNameValue := "";
     activeGuide := None |}.

(** A session: a second door is added, its panel width edited, and the first
    door deleted. *)
Definition exampleSession : list (DoorEvent num) :=
  [ AddDoor "b"; Update Key.mdfPanelWidth (lit 200);
    StartRename (createDoor "a" "Door 1"); CommitRename; DeleteDoor "a" ].

(** Two doors, the second one active. *)
Definition twoDoorsState : DoorsState num :=
  {| doors := [createDoor "a" "Door 1"; createDoor "b" "Door 2"];
     activeDoorId := "b";
     editingName := None;
     editNameValue := "";
     activeGuide := None |}.

End InitialDoors.

Section Codec.

Local Open Scope string_scope.

(** [JSON.stringify] and [JSON.parse] for a boolean, as the "sidebar-open"
    key stores one. *)
Definition stringify_bool (b : bool) : string :=
  if b then "true" else "false".

Definition parse_bool (s : string) : option bool :=
  if String.eqb s "true" then Some true
  else if String.eqb s "false" then Some false
  else None.

End Codec.

Module Page.
(** A page of the registry; its icon and component are left out. *)
Record t : Type := { id : string; label : string }.
End Page.

Section App.

Local Open Scope string_scope.
Local Open Scope list_scope.

Definition pages : list Page.t :=
  [ {| Page.id := "door-calculator"; Page.label := "Door Calculator" |} ].

(** The state of [App]. *)
Record AppState : Type := { activePageId : string; sidebarOpen : bool }.

(** [pages.find((p) => p.id === activePageId) ?? pages[0]]. *)
Definition activePage (ps : list Page.t) (st : AppState) : option Page.t :=
  find_or_first (fun p => String.eqb p.(Page.id) st.(activePageId)) ps.

(** Clicking the active page icon toggles the sidebar; another page becomes
    the active one and opens it. *)
Definition handlePageSelect (pageId : string) (st : AppState) : AppState :=
  if String.eqb pageId st.(activePageId) then
    {| activePageId := st.(activePageId);
       sidebarOpen := negb st.(sidebarOpen) |}
  else
    {| activePageId := pageId;
       sidebarOpen := if negb st.(sidebarOpen) then true else st.(sidebarOpen) |}.

End App.

(** ** Laws that hold in every arithmetic *)

Section Shape.

Context {num : Type} {N : JSNumber num}.
Local Open Scope string_scope.
Local Open Scope list_scope.
Local Open Scope num_scope.

Lemma errors_messages_distinct :
  NoDup [panelWidth_error; panelBeadingGap_error;
         topPanelHeight_error; bottomPanelHeight_error].
Proof.
  repeat constructor; simpl; unfold panelWidth_error, panelBeadingGap_error,
    topPanelHeight_error, bottomPanelHeight_error; intuition discriminate.
Qed.



(** C4. [calculateCuts] is a total function to [CutResult.t] (every input,
    also a NaN or an infinity at the binary64 instance, yields a record).  Its
    [errors] holds the message of a test exactly when that test of the source
    succeeds ([panelWidth <= 0], [panelBeadingGap < 0], [topPanelHeight <= 0],
    [bottomPanelHeight <= 0], on the unrounded constants), holds nothing else
    and nothing twice; [isValid] is true exactly when [errors] is empty; and
    neither depends on the handle keys, the only keys that can switch a
    handle warning on or off for given margins and heights. *)
Theorem errors_characterization (c : DoorConfig num) :
  let res := calculateCuts c in
  (In panelWidth_error (CutResult.errors res)
     <-> (panelWidth c <=? lit 0) = true)
  /\ (In panelBeadingGap_error (CutResult.errors res)
     <-> (panelBeadingGap c <? lit 0) = true)
  /\ (In topPanelHeight_error (CutResult.errors res)
     <-> (topPanelHeight c <=? lit 0) = true)
  /\ (In bottomPanelHeight_error (CutResult.errors res)
     <-> (bottomPanelHeight c <=? lit 0) = true)
  /\ (forall m, In m (CutResult.errors res) ->
       In m [panelWidth_error; panelBeadingGap_error;
             topPanelHeight_error; bottomPanelHeight_error])
  /\ NoDup (CutResult.errors res)
  /\ (CutResult.isValid res = true <-> CutResult.errors res = [])
  /\ (forall side height indent spread,
       let res' := calculateCuts (with_handle c side height indent spread) in
       CutResult.isValid res' = CutResult.isValid res
       /\ CutResult.errors res' = CutResult.errors res).
Proof.
  intro res; subst res.
  unfold calculateCuts; cbn [CutResult.errors CutResult.isValid].
  assert (Hh : forall side height indent spread,
             errors (with_handle c side height indent spread) = errors c)
    by reflexivity.
  repeat match goal with |- _ /\ _ => split end;
    try (intros side height indent spread; cbv zeta; rewrite Hh; split; reflexivity);
    clear Hh; unfold errors;
    destruct (panelWidth c <=? lit 0), (panelBeadingGap c <? lit 0),
      (topPanelHeight c <=? lit 0), (bottomPanelHeight c <=? lit 0);
    unfold panelWidth_error, panelBeadingGap_error, topPanelHeight_error,
      bottomPanelHeight_error; simpl;
    try (split; intros H; try discriminate H; try reflexivity;
         repeat (destruct H as [H | H]; try discriminate H); tauto);
    try (intros m H; tauto);
    try (repeat constructor; simpl; intuition discriminate).
Qed.

(** The handle warning, as the source tests it. *)
Lemma handleWarnings_nonempty_iff (c : DoorConfig num) :
  handleWarnings c <> [] <->
  (c.(handleSpread) >? handleMargin c) = true
  /\ (overlapsTop c = true \/ overlapsBottom c = true).
Proof.
  unfold handleWarnings.
  destruct (c.(handleSpread) >? handleMargin c), (overlapsTop c),
    (overlapsBottom c); simpl; split; intros H;
    try discriminate; try tauto; try (exfalso; apply H; reflexivity);
    try (destruct H as [H1 [H2 | H2]]; discriminate).
Qed.

(** C6, as amended.  [handleWarnings] is non-empty exactly when
    [handleSpread > handleMargin] (the margin on the side of the handle) and,
    for at least one row, the handle band and the row's span overlap
    strictly: [handleHeight + 80] is greater than the start of the span and
    [handleHeight - 80] is less than its end, as [<] and [>] compare the
    numbers the code computes.  The spans run from [topMargin] to
    [topMargin + topUnitHeight] and from
    [topMargin + topUnitHeight + verticalGap] to that plus
    [bottomUnitHeight], the unit heights being the shares [topPanelRatio/100]
    and [(100 - topPanelRatio)/100] of the available height.  This holds in
    every arithmetic, so on doubles. *)
Theorem handle_warning_threshold (c : DoorConfig num) :
  let margin :=
    match c.(handleSide) with
    | HandleSide.left => c.(leftMargin)
    | HandleSide.right => c.(rightMargin)
    end in
  let avH :=
    c.(doorHeight) - c.(topMargin) - c.(bottomMargin) - c.(verticalGap) in
  let topH := avH * (c.(topPanelRatio) / lit 100) in
  let botH := avH * ((lit 100 - c.(topPanelRatio)) / lit 100) in
  let topStart := c.(topMargin) in
  let topEnd := c.(topMargin) + topH in
  let bottomStart := c.(topMargin) + topH + c.(verticalGap) in
  let bottomEnd := bottomStart + botH in
  CutResult.handleWarnings (calculateCuts c) <> [] <->
  (margin <? c.(handleSpread)) = true
  /\ (((topStart <? c.(handleHeight) + lit 80)
       && (c.(handleHeight) - lit 80 <? topEnd)) = true
      \/ ((bottomStart <? c.(handleHeight) + lit 80)
          && (c.(handleHeight) - lit 80 <? bottomEnd)) = true).
Proof.
  cbv zeta. unfold calculateCuts; cbn [CutResult.handleWarnings].
  rewrite handleWarnings_nonempty_iff.
  unfold overlapsTop, overlapsBottom, gtb, bottomUnitBottom, bottomUnitTop,
    topUnitBottom, topUnitTop, handleBottom, handleTop, handleMargin,
    topUnitHeight, bottomUnitHeight, availableHeight.
  reflexivity.
Qed.

(** C7. [unitPositions] holds four entries, labelled Top-Left, Top-Right,
    Bottom-Left, Bottom-Right in this order.  With column origins
    [leftMargin] and [leftMargin + panelUnitWidth + horizontalGap] and row
    origins [topMargin] and [topMargin + topUnitHeight + verticalGap], a unit
    has [beadingLeftX] = column origin, [beadingRightX] = column origin +
    [panelUnitWidth], [beadingY] = row origin, [pinX] = column origin +
    [panelUnitWidth/2] and [pinY] = row origin + [beadingWidth/2], each passed
    through the one-decimal rounding [r]. *)
Theorem unitPositions_coordinates (c : DoorConfig num) :
  let colX0 := c.(leftMargin) in
  let colX1 := c.(leftMargin) + panelUnitWidth c + c.(horizontalGap) in
  let rowY0 := c.(topMargin) in
  let rowY1 := c.(topMargin) + topUnitHeight c + c.(verticalGap) in
  let unit name colX rowY :=
    {| label := name;
       beadingLeftX := r colX;
       beadingRightX := r (colX + panelUnitWidth c);
       beadingY := r rowY;
       pinX := r (colX + panelUnitWidth c / lit 2);
       pinY := r (rowY + c.(beadingWidth) / lit 2) |} in
  CutResult.unitPositions (calculateCuts c)
  = [ unit "Top-Left" colX0 rowY0; unit "Top-Right" colX1 rowY0;
      unit "Bottom-Left" colX0 rowY1; unit "Bottom-Right" colX1 rowY1 ].
Proof.
  cbv zeta. unfold calculateCuts, unitPositions, unitPosition, r.
  cbn [CutResult.unitPositions seq flat_map map app].
  unfold colXs, rowYs, labels. cbn [nth Nat.mul Nat.add].
  reflexivity.
Qed.

(** C9. Two configurations that agree on every key except [handleIndent]
    yield the same [CutResult]: no dimension, coordinate, warning, error or
    validity output depends on [handleIndent]. *)
Theorem handleIndent_noninterference (c1 c2 : DoorConfig num) :
  agree_except_handleIndent c1 c2 -> calculateCuts c1 = calculateCuts c2.
Proof.
  destruct c1, c2; unfold agree_except_handleIndent; cbn.
  intros (-> & -> & -> & -> & -> & -> & -> & -> & -> & -> & -> & -> & -> & ->).
  reflexivity.
Qed.

(** Changing [handleIndent] alone is a special case. *)
Lemma with_handleIndent_agrees (c : DoorConfig num) (v : num) :
  agree_except_handleIndent (with_handleIndent c v) c.
Proof. unfold agree_except_handleIndent; cbn; repeat split. Qed.

(** C10. [handleWarnings] has at most one entry; when the handle reaches past
    its margin and its band overlaps both rows, the list is the single
    message [handleWarning], not one message per row. *)
Theorem handleWarnings_at_most_one (c : DoorConfig num) :
  (List.length (CutResult.handleWarnings (calculateCuts c)) <= 1)%nat
  /\ ((c.(handleSpread) >? handleMargin c) = true ->
      overlapsTop c = true -> overlapsBottom c = true ->
      CutResult.handleWarnings (calculateCuts c) = [handleWarning c]).
Proof.
  unfold calculateCuts; cbn [CutResult.handleWarnings]; unfold handleWarnings.
  split.
  - destruct (c.(handleSpread) >? handleMargin c);
      [destruct (overlapsTop c || overlapsBottom c)|]; simpl; lia.
  - intros -> -> ->; reflexivity.
Qed.

End Shape.

(** ** Laws of the binary64 arithmetic *)

Section Binary64.

Local Open Scope Z_scope.

(** *** [Math.round] *)

Lemma nearest_integer_shift (M k : Z) :
  0 < k -> nearest_integer M k = Z.shiftr (2 * M + Z.shiftl 1 k) (k + 1).
Proof.
  intros Hk. unfold nearest_integer, Qfloor, Qplus. cbn [Qnum Qden].
  rewrite Z.shiftr_div_pow2 by lia. rewrite Z.shiftl_1_l.
  assert (Hp : 0 < 2 ^ k) by (apply Z.pow_pos_nonneg; lia).
  rewrite Pos2Z.inj_mul, Z2Pos.id by exact Hp.
  rewrite Z.pow_add_r by lia. change (2 ^ 1) with 2.
  f_equal; ring.
Qed.

(** [float_round] computes what ECMA-262 asks of [Math.round]. *)
Lemma float_round_is_Math_round (x : float) : is_Math_round x (float_round x).
Proof.
  unfold is_Math_round, float_round.
  destruct (Prim2SF x) as [s|s| |s m e]; try reflexivity.
  destruct (0 <=? e) eqn:E; [reflexivity|].
  apply Z.leb_gt in E. cbv zeta.
  rewrite nearest_integer_shift by lia.
  destruct (_ =? 0); reflexivity.
Qed.

Lemma r_rounded_to_tenth (x : float) : rounded_to_tenth x (r x).
Proof.
  exists (float_round (x * 10)%float). split.
  - apply float_round_is_Math_round.
  - reflexivity.
Qed.

(** *** Integers in doubles *)

Lemma In_zrange_from (n : nat) (a z : Z) :
  a <= z < a + Z.of_nat n -> In z (zrange_from n a).
Proof.
  revert a. induction n as [|n IH]; intros a H; [lia|].
  cbn [zrange_from]. destruct (Z.eq_dec a z) as [->|Hne]; [left; reflexivity|].
  right. apply IH. lia.
Qed.

Lemma In_zrange (lo hi z : Z) : lo <= z <= hi -> In z (zrange lo hi).
Proof. intros H. apply In_zrange_from. lia. Qed.

Lemma all2_spec (la lb : list Z) (f : Z -> Z -> bool) (a b : Z) :
  all2 la lb f = true -> In a la -> In b lb -> f a b = true.
Proof.
  unfold all2. intros H Ha Hb. rewrite forallb_forall in H.
  specialize (H a Ha). rewrite forallb_forall in H. exact (H b Hb).
Qed.

(** Addition of doubles commutes. *)
Lemma SFadd_comm (prec emax : Z) (a b : spec_float) :
  SFadd prec emax a b = SFadd prec emax b a.
Proof.
  destruct a as [sa|sa| |sa ma ea], b as [sb|sb| |sb mb eb]; cbn [SFadd];
    try reflexivity; try (destruct sa, sb; reflexivity).
  cbv zeta. rewrite (Z.min_comm eb ea). f_equal. apply Z.add_comm.
Qed.

Lemma float_add_comm (x y : float) : (x + y)%float = (y + x)%float.
Proof.
  rewrite <- (SF2Prim_Prim2SF (x + y)), <- (SF2Prim_Prim2SF (y + x)).
  rewrite !FloatAxioms.add_spec. unfold SF64add. rewrite SFadd_comm.
  reflexivity.
Qed.

Lemma sub_exact_all :
  all2 (zrange (-300) 2500) (zrange 0 300) sub_exact_check = true.
Proof. vm_compute. reflexivity. Qed.

Lemma double_all : forallb double_check (zrange 0 50) = true.
Proof. vm_compute. reflexivity. Qed.

Lemma half_sub_all :
  all2 (zrange (-800) 1200) (zrange 0 600) half_sub_check = true.
Proof. vm_compute. reflexivity. Qed.



Lemma int_add_half_all :
  all2 (zrange 0 600) (zrange (-800) 1800) int_add_half_check = true.
Proof. vm_compute. reflexivity. Qed.

Lemma half_add_int_all :
  all2 (zrange (-800) 1800) (zrange 0 300) half_add_int_check = true.
Proof. vm_compute. reflexivity. Qed.

Lemma half_add_half_all :
  all2 (zrange 0 600) (zrange (-600) 1200) half_add_half_check = true.
Proof. vm_compute. reflexivity. Qed.

Lemma double_quarter_all :
  forallb double_quarter_check (zrange (-2000) 1200) = true.
Proof. vm_compute. reflexivity. Qed.

Lemma r_int_all : forallb r_int_check (zrange 0 1200) = true.
Proof. vm_compute. reflexivity. Qed.

Lemma r_half_all : forallb r_half_check (zrange (-800) 2400) = true.
Proof. vm_compute. reflexivity. Qed.

Lemma r_quarter_all : forallb r_quarter_check (zrange (-2000) 1200) = true.
Proof. vm_compute. reflexivity. Qed.

Lemma row_sum_all :
  all2 (zrange (-400) 2500) (zrange 0 50) row_sum_check = true.
Proof. vm_compute. reflexivity. Qed.

(** Subtracting small integers is exact. *)
Lemma float_sub_exact (a b : Z) :
  -300 <= a <= 2500 -> 0 <= b <= 300 ->
  (float_of_Z a - float_of_Z b)%float = float_of_Z (a - b).
Proof.
  intros Ha Hb. apply FloatAxioms.Leibniz.eqb_spec.
  apply (all2_spec _ _ _ a b sub_exact_all); apply In_zrange; assumption.
Qed.

Lemma float_double_exact (b : Z) :
  0 <= b <= 50 -> (float_of_Z 2 * float_of_Z b)%float = float_of_Z (2 * b).
Proof.
  intros Hb. apply FloatAxioms.Leibniz.eqb_spec.
  pose proof double_all as H. rewrite forallb_forall in H.
  apply H, In_zrange, Hb.
Qed.

(** So is subtracting an integer from a half. *)
Lemma half_sub_exact (n b : Z) :
  -800 <= n <= 1200 -> 0 <= b <= 600 ->
  (half_of n - float_of_Z b)%float = half_of (n - 2 * b).
Proof.
  intros Ha Hb. apply FloatAxioms.Leibniz.eqb_spec.
  apply (all2_spec _ _ _ n b half_sub_all); apply In_zrange; assumption.
Qed.



(** [r] keeps such halves and integers. *)
Lemma r_half (n : Z) : -800 <= n <= 2400 -> r (half_of n) = half_of n.
Proof.
  intros Hn. apply FloatAxioms.Leibniz.eqb_spec.
  pose proof r_half_all as A. rewrite forallb_forall in A.
  apply A, In_zrange, Hn.
Qed.

Lemma r_int (z : Z) : 0 <= z <= 1200 -> r (float_of_Z z) = float_of_Z z.
Proof.
  intros Hz. apply FloatAxioms.Leibniz.eqb_spec.
  pose proof r_int_all as A. rewrite forallb_forall in A.
  apply A, In_zrange, Hz.
Qed.

(** For integer inputs the unit width is half an integer, computed
    exactly. *)
Lemma panelUnitWidth_int (c : DoorConfig float) (dw lm rm hg : Z) :
  300 <= dw <= 1200 -> 0 <= lm <= 300 -> 0 <= rm <= 300 -> 0 <= hg <= 300 ->
  c.(doorWidth) = float_of_Z dw -> c.(leftMargin) = float_of_Z lm ->
  c.(rightMargin) = float_of_Z rm -> c.(horizontalGap) = float_of_Z hg ->
  panelUnitWidth c = half_of (dw - lm - rm - hg).
Proof.
  intros Hdw Hlm Hrm Hhg Edw Elm Erm Ehg.
  unfold panelUnitWidth, availableWidth.
  cbn [sub div lit float_JSNumber].
  rewrite Edw, Elm, Erm, Ehg.
  rewrite !float_sub_exact by lia. reflexivity.
Qed.

(** For integer inputs the width left for the panel and the gap are halves
    and quarters of integers, computed exactly. *)
Lemma panel_space_int (c : DoorConfig float) (dw lm rm hg bw : Z) :
  300 <= dw <= 1200 -> 0 <= lm <= 300 -> 0 <= rm <= 300 -> 0 <= hg <= 300 ->
  0 <= bw <= 50 ->
  c.(doorWidth) = float_of_Z dw -> c.(leftMargin) = float_of_Z lm ->
  c.(rightMargin) = float_of_Z rm -> c.(horizontalGap) = float_of_Z hg ->
  c.(beadingWidth) = float_of_Z bw ->
  (panelUnitWidth c - 2 * c.(beadingWidth))%float
  = half_of (dw - lm - rm - hg - 4 * bw).
Proof.
  intros Hdw Hlm Hrm Hhg Hbw Edw Elm Erm Ehg Ebw.
  rewrite (panelUnitWidth_int c dw lm rm hg Hdw Hlm Hrm Hhg Edw Elm Erm Ehg).
  rewrite Ebw. change 2%float with (float_of_Z 2).
  rewrite float_double_exact by lia.
  rewrite half_sub_exact by lia.
  f_equal. lia.
Qed.

Lemma panelBeadingGap_int (c : DoorConfig float) (dw lm rm hg bw w : Z) :
  300 <= dw <= 1200 -> 0 <= lm <= 300 -> 0 <= rm <= 300 -> 0 <= hg <= 300 ->
  0 <= bw <= 50 -> 0 <= w <= 600 ->
  c.(doorWidth) = float_of_Z dw -> c.(leftMargin) = float_of_Z lm ->
  c.(rightMargin) = float_of_Z rm -> c.(horizontalGap) = float_of_Z hg ->
  c.(beadingWidth) = float_of_Z bw -> c.(mdfPanelWidth) = float_of_Z w ->
  panelBeadingGap c
  = (half_of (dw - lm - rm - hg - 4 * bw - 2 * w) / float_of_Z 2)%float.
Proof.
  intros Hdw Hlm Hrm Hhg Hbw Hw Edw Elm Erm Ehg Ebw Ew.
  pose proof (panel_space_int c dw lm rm hg bw Hdw Hlm Hrm Hhg Hbw
                Edw Elm Erm Ehg Ebw) as HW.
  unfold panelBeadingGap, panelWidth.
  cbn [sub mul div lit float_JSNumber].
  change (float_of_Z 2 * beadingWidth c)%float
    with (2 * beadingWidth c)%float.
  rewrite HW, Ew. rewrite half_sub_exact by lia. reflexivity.
Qed.

(** *** The returned widths *)

(** C3. In every arithmetic the returned [panelBeadingGap] is
    [Math.round(g * 10) / 10] for
    [g = ((doorWidth - leftMargin - rightMargin - horizontalGap)/2
          - 2*beadingWidth - mdfPanelWidth)/2]
    (one horizontal gap is subtracted, whatever its sign), the returned
    [panelWidth] is [Math.round(mdfPanelWidth * 10) / 10], and both
    horizontal long-point lengths are [Math.round(u * 10) / 10] for the panel
    unit width [u = (doorWidth - leftMargin - rightMargin - horizontalGap)/2].
    On doubles each of these is the value rounded to one decimal place: the
    quotient by ten of the integer nearest to ten times the value, halves
    going up.  When the six keys are integers in the ranges 300-1200
    ([doorWidth]), 0-300 (the margins and the gap), 0-50 ([beadingWidth]) and
    0-600 ([mdfPanelWidth]), nothing is lost on the way: the returned
    [panelWidth] is [mdfPanelWidth], both horizontal long points are the
    panel unit width, half the integer [doorWidth - leftMargin - rightMargin
    - horizontalGap], and the returned gap is [k / 10] for the integer [k]
    nearest to ten times the quarter of [m], [m] being that integer minus
    [4*beadingWidth + 2*mdfPanelWidth]. *)
Theorem derivation_formulas :
  (forall (num : Type) (N : JSNumber num) (c : DoorConfig num),
     let unitW :=
       ((c.(doorWidth) - c.(leftMargin) - c.(rightMargin)
         - c.(horizontalGap)) / lit 2)%num in
     let gap :=
       ((unitW - lit 2 * c.(beadingWidth) - c.(mdfPanelWidth)) / lit 2)%num in
     CutResult.panelBeadingGap (calculateCuts c)
       = (Math_round (gap * lit 10) / lit 10)%num
     /\ CutResult.panelWidth (calculateCuts c)
        = (Math_round (c.(mdfPanelWidth) * lit 10) / lit 10)%num
     /\ panelUnitWidth c = unitW
     /\ CutResult.topHorizontalBeading (calculateCuts c)
        = (Math_round (unitW * lit 10) / lit 10)%num
     /\ CutResult.bottomHorizontalBeading (calculateCuts c)
        = (Math_round (unitW * lit 10) / lit 10)%num)
  /\ (forall c : DoorConfig float,
        let unitW :=
          ((c.(doorWidth) - c.(leftMargin) - c.(rightMargin)
            - c.(horizontalGap)) / 2)%float in
        let gap :=
          ((unitW - 2 * c.(beadingWidth) - c.(mdfPanelWidth)) / 2)%float in
        rounded_to_tenth gap (CutResult.panelBeadingGap (calculateCuts c))
        /\ rounded_to_tenth c.(mdfPanelWidth)
             (CutResult.panelWidth (calculateCuts c))
        /\ rounded_to_tenth unitW
             (CutResult.topHorizontalBeading (calculateCuts c))
        /\ rounded_to_tenth unitW
             (CutResult.bottomHorizontalBeading (calculateCuts c)))
  /\ (forall (c : DoorConfig float) (dw lm rm hg bw w : Z),
        300 <= dw <= 1200 -> 0 <= lm <= 300 -> 0 <= rm <= 300 ->
        0 <= hg <= 300 -> 0 <= bw <= 50 -> 0 <= w <= 600 ->
        c.(doorWidth) = float_of_Z dw -> c.(leftMargin) = float_of_Z lm ->
        c.(rightMargin) = float_of_Z rm ->
        c.(horizontalGap) = float_of_Z hg ->
        c.(beadingWidth) = float_of_Z bw ->
        c.(mdfPanelWidth) = float_of_Z w ->
        let m := dw - lm - rm - hg - 4 * bw - 2 * w in
        CutResult.panelBeadingGap (calculateCuts c)
          = (float_of_Z ((5 * m + 1) / 2) / 10)%float
        /\ CutResult.panelWidth (calculateCuts c) = c.(mdfPanelWidth)
        /\ panelUnitWidth c = (float_of_Z (dw - lm - rm - hg) / 2)%float
        /\ CutResult.topHorizontalBeading (calculateCuts c)
           = panelUnitWidth c
        /\ CutResult.bottomHorizontalBeading (calculateCuts c)
           = panelUnitWidth c).
Proof.
  split; [|split].
  - intros num N c. cbv zeta. repeat split.
  - intros c. cbv zeta.
    split; [|split; [|split]]; apply r_rounded_to_tenth.
  - intros c dw lm rm hg bw w Hdw Hlm Hrm Hhg Hbw Hw Edw Elm Erm Ehg Ebw Ew.
    cbv zeta.
    pose proof (panelUnitWidth_int c dw lm rm hg Hdw Hlm Hrm Hhg
                  Edw Elm Erm Ehg) as Hu.
    pose proof (panelBeadingGap_int c dw lm rm hg bw w Hdw Hlm Hrm Hhg Hbw Hw
                  Edw Elm Erm Ehg Ebw Ew) as Hg.
    unfold calculateCuts.
    cbn [CutResult.panelBeadingGap CutResult.panelWidth
         CutResult.topHorizontalBeading CutResult.bottomHorizontalBeading].
    unfold topHBeading, botHBeading, panelWidth. rewrite Hg, Hu, Ew.
    assert (Hh : r (half_of (dw - lm - rm - hg))
                 = half_of (dw - lm - rm - hg)).
    { apply FloatAxioms.Leibniz.eqb_spec.
      pose proof r_half_all as A. rewrite forallb_forall in A.
      apply A, In_zrange. lia. }
    split; [|split; [|split; [reflexivity|split; exact Hh]]].
    + apply FloatAxioms.Leibniz.eqb_spec.
      pose proof r_quarter_all as A. rewrite forallb_forall in A.
      apply A, In_zrange. lia.
    + apply FloatAxioms.Leibniz.eqb_spec.
      pose proof r_int_all as A. rewrite forallb_forall in A.
      apply A, In_zrange. lia.
Qed.

(** *** Short points *)

(** C5, as amended.  In every arithmetic each long point is
    [Math.round(L * 10) / 10] and each short point is
    [Math.round((L - 2*beadingWidth) * 10) / 10], where [L] is the unrounded
    length: the panel unit width for the horizontal pairs, the unit height of
    the row for the vertical pairs.  On doubles the long point is [L] rounded
    to one decimal place and the short point is [L - 2*beadingWidth] rounded
    to one decimal place; the two are rounded separately.  When [doorWidth],
    [leftMargin], [rightMargin], [horizontalGap] and [beadingWidth] are
    integers in the ranges 300-1200, 0-300, 0-300, 0-300 and 0-50, the two
    horizontal short points are the long points minus [2*beadingWidth]
    exactly. *)
Theorem short_point_law :
  (forall (num : Type) (N : JSNumber num) (c : DoorConfig num),
     let unitW :=
       ((c.(doorWidth) - c.(leftMargin) - c.(rightMargin)
         - c.(horizontalGap)) / lit 2)%num in
     let avH :=
       (c.(doorHeight) - c.(topMargin) - c.(bottomMargin)
        - c.(verticalGap))%num in
     let topH := (avH * (c.(topPanelRatio) / lit 100))%num in
     let botH := (avH * ((lit 100 - c.(topPanelRatio)) / lit 100))%num in
     let tenth := fun x : num => (Math_round (x * lit 10) / lit 10)%num in
     let d := (lit 2 * c.(beadingWidth))%num in
     let res := calculateCuts c in
     (CutResult.topHorizontalBeading res = tenth unitW
      /\ CutResult.topHorizontalBeadingShort res = tenth (unitW - d)%num)
     /\ (CutResult.topVerticalBeading res = tenth topH
         /\ CutResult.topVerticalBeadingShort res = tenth (topH - d)%num)
     /\ (CutResult.bottomHorizontalBeading res = tenth unitW
         /\ CutResult.bottomHorizontalBeadingShort res = tenth (unitW - d)%num)
     /\ (CutResult.bottomVerticalBeading res = tenth botH
         /\ CutResult.bottomVerticalBeadingShort res = tenth (botH - d)%num))
  /\ (forall c : DoorConfig float,
        let unitW :=
          ((c.(doorWidth) - c.(leftMargin) - c.(rightMargin)
            - c.(horizontalGap)) / 2)%float in
        let avH :=
          (c.(doorHeight) - c.(topMargin) - c.(bottomMargin)
           - c.(verticalGap))%float in
        let topH := (avH * (c.(topPanelRatio) / 100))%float in
        let botH := (avH * ((100 - c.(topPanelRatio)) / 100))%float in
        let d := (2 * c.(beadingWidth))%float in
        let res := calculateCuts c in
        (rounded_to_tenth unitW (CutResult.topHorizontalBeading res)
         /\ rounded_to_tenth (unitW - d)%float
              (CutResult.topHorizontalBeadingShort res))
        /\ (rounded_to_tenth topH (CutResult.topVerticalBeading res)
            /\ rounded_to_tenth (topH - d)%float
                 (CutResult.topVerticalBeadingShort res))
        /\ (rounded_to_tenth unitW (CutResult.bottomHorizontalBeading res)
            /\ rounded_to_tenth (unitW - d)%float
                 (CutResult.bottomHorizontalBeadingShort res))
        /\ (rounded_to_tenth botH (CutResult.bottomVerticalBeading res)
            /\ rounded_to_tenth (botH - d)%float
                 (CutResult.bottomVerticalBeadingShort res)))
  /\ (forall c : DoorConfig float,
        is_int_in 300 1200 c.(doorWidth) ->
        is_int_in 0 300 c.(leftMargin) ->
        is_int_in 0 300 c.(rightMargin) ->
        is_int_in 0 300 c.(horizontalGap) ->
        is_int_in 0 50 c.(beadingWidth) ->
        let res := calculateCuts c in
        CutResult.topHorizontalBeadingShort res
        = (CutResult.topHorizontalBeading res - 2 * c.(beadingWidth))%float
        /\ CutResult.bottomHorizontalBeadingShort res
           = (CutResult.bottomHorizontalBeading res
              - 2 * c.(beadingWidth))%float).
Proof.
  split; [|split].
  - intros num N c. cbv zeta. repeat split.
  - intros c. cbv zeta.
    repeat match goal with |- _ /\ _ => split end; apply r_rounded_to_tenth.
  - intros c (dw & Hdw & Edw) (lm & Hlm & Elm) (rm & Hrm & Erm)
      (hg & Hhg & Ehg) (bw & Hbw & Ebw).
    cbv zeta. unfold calculateCuts.
    cbn [CutResult.topHorizontalBeadingShort CutResult.topHorizontalBeading
         CutResult.bottomHorizontalBeadingShort
         CutResult.bottomHorizontalBeading].
    unfold topHBeading, botHBeading.
    rewrite (panelUnitWidth_int c dw lm rm hg Hdw Hlm Hrm Hhg Edw Elm Erm Ehg).
    rewrite Ebw. cbn [sub mul lit float_JSNumber].
    change 2%float with (float_of_Z 2).
    rewrite float_double_exact by lia.
    rewrite half_sub_exact by lia.
    rewrite !r_half by lia.
    rewrite half_sub_exact by lia.
    split; reflexivity.
Qed.

(** *** Row heights *)

(** C2, as amended.  For a configuration whose [doorHeight], [topMargin],
    [bottomMargin], [verticalGap] and [topPanelRatio] are integers in the
    ranges 500-2500, 0-300, 0-300, 0-300 and 0-100, the two returned row
    heights, [topVerticalBeading] and [bottomVerticalBeading], add up to the
    available height [doorHeight - topMargin - bottomMargin - verticalGap]
    to within 0.1 and the rounding of the doubles (less than 1e-12), with no
    [verticalGap] term: the available height already excludes the gap, and
    each height is rounded on its own. *)
Theorem row_sum_within_tenth (c : DoorConfig float) :
  is_int_in 500 2500 c.(doorHeight) ->
  is_int_in 0 300 c.(topMargin) ->
  is_int_in 0 300 c.(bottomMargin) ->
  is_int_in 0 300 c.(verticalGap) ->
  is_int_in 0 100 c.(topPanelRatio) ->
  let res := calculateCuts c in
  let avH :=
    (c.(doorHeight) - c.(topMargin) - c.(bottomMargin)
     - c.(verticalGap))%float in
  PrimFloat.leb
    (PrimFloat.abs
       (CutResult.topVerticalBeading res + CutResult.bottomVerticalBeading res
        - avH)%float)
    0.100000000001%float = true.
Proof.
  intros (dh & Hdh & Edh) (tm & Htm & Etm) (bm & Hbm & Ebm) (vg & Hvg & Evg)
    (p & Hp & Ep).
  cbv zeta.
  assert (Hah : (c.(doorHeight) - c.(topMargin) - c.(bottomMargin)
                 - c.(verticalGap))%float
                = float_of_Z (dh - tm - bm - vg)).
  { rewrite Edh, Etm, Ebm, Evg.
    rewrite !float_sub_exact by lia. reflexivity. }
  unfold calculateCuts.
  cbn [CutResult.topVerticalBeading CutResult.bottomVerticalBeading].
  unfold topVBeading, botVBeading, topUnitHeight, bottomUnitHeight,
    availableHeight.
  cbn [mul div sub lit float_JSNumber].
  rewrite Hah, Ep.
  assert (Hr : -400 <= dh - tm - bm - vg <= 2500) by lia.
  assert (K : forall q, 0 <= q <= 50 ->
                row_sum_check (dh - tm - bm - vg) q = true).
  { intros q Hq.
    exact (all2_spec _ _ _ _ q row_sum_all (In_zrange _ _ _ Hr)
             (In_zrange _ _ _ Hq)). }
  destruct (Z_le_gt_dec p 50) as [Hle|Hgt].
  - apply K. lia.
  - (* the rows of ratio [p] are those of ratio [100 - p], swapped *)
    assert (Hq : 0 <= 100 - p <= 50) by lia.
    pose proof (K (100 - p) Hq) as H. unfold row_sum_check in H.
    cbv zeta in H.
    rewrite (float_sub_exact 100 (100 - p)) in H by lia.
    replace (100 - (100 - p)) with p in H by lia.
    rewrite float_add_comm in H.
    rewrite (float_sub_exact 100 p) by lia.
    exact H.
Qed.

(** *** Validity as a function of the panel width *)


(** *** The grid across the width *)

Lemma float_add_half (a n : Z) :
  0 <= a <= 600 -> -800 <= 2 * a + n <= 1800 ->
  (float_of_Z a + half_of n)%float = half_of (2 * a + n).
Proof.
  intros Ha Hq.
  pose proof (all2_spec _ _ _ a (2 * a + n) int_add_half_all
                (In_zrange _ _ _ Ha) (In_zrange _ _ _ Hq)) as H.
  apply FloatAxioms.Leibniz.eqb_spec in H.
  replace (2 * a + n - 2 * a) with n in H by lia. exact H.
Qed.

Lemma half_add_float (n b : Z) :
  -800 <= n <= 1800 -> 0 <= b <= 300 ->
  (half_of n + float_of_Z b)%float = half_of (n + 2 * b).
Proof.
  intros Hn Hb. apply FloatAxioms.Leibniz.eqb_spec.
  apply (all2_spec _ _ _ n b half_add_int_all); apply In_zrange; assumption.
Qed.

Lemma half_add_half (k n : Z) :
  0 <= k <= 600 -> -600 <= n <= 1200 ->
  (half_of (n + 2 * k) + half_of n)%float = float_of_Z (n + k).
Proof.
  intros Hk Hn. apply FloatAxioms.Leibniz.eqb_spec.
  apply (all2_spec _ _ _ k n half_add_half_all); apply In_zrange; assumption.
Qed.

(** X1. For a [doorWidth], side margins and horizontal gap that are integers
    in the ranges 300-1200, 0-300, 0-300 and 0-300, the two columns fill the
    width exactly, in doubles: the left column runs from [leftMargin] to
    [leftMargin + n/2], the right column from [leftMargin + n/2 +
    horizontalGap] to [doorWidth - rightMargin], where [n] is
    [doorWidth - leftMargin - rightMargin - horizontalGap]; no rounding is
    lost in the returned coordinates. *)
Theorem grid_fills_width (c : DoorConfig float) (dw lm rm hg : Z) :
  300 <= dw <= 1200 -> 0 <= lm <= 300 -> 0 <= rm <= 300 -> 0 <= hg <= 300 ->
  c.(doorWidth) = float_of_Z dw -> c.(leftMargin) = float_of_Z lm ->
  c.(rightMargin) = float_of_Z rm -> c.(horizontalGap) = float_of_Z hg ->
  let n := dw - lm - rm - hg in
  let leftEnd := (float_of_Z (2 * lm + n) / 2)%float in
  let rightStart := (float_of_Z (2 * lm + n + 2 * hg) / 2)%float in
  let rightEnd := (c.(doorWidth) - c.(rightMargin))%float in
  map (fun u => (u.(label), u.(beadingLeftX), u.(beadingRightX)))
    (CutResult.unitPositions (calculateCuts c))
  = [ ("Top-Left"%string, c.(leftMargin), leftEnd);
      ("Top-Right"%string, rightStart, rightEnd);
      ("Bottom-Left"%string, c.(leftMargin), leftEnd);
      ("Bottom-Right"%string, rightStart, rightEnd) ].
Proof.
  intros Hdw Hlm Hrm Hhg Edw Elm Erm Ehg. cbv zeta.
  pose proof (panelUnitWidth_int c dw lm rm hg Hdw Hlm Hrm Hhg
                Edw Elm Erm Ehg) as Hu.
  unfold calculateCuts, unitPositions, unitPosition.
  cbn [CutResult.unitPositions seq flat_map map app].
  unfold colXs, rowYs, labels. cbn [nth Nat.mul Nat.add].
  cbn [label beadingLeftX beadingRightX].
  rewrite Hu, Edw, Elm, Erm, Ehg. cbn [add float_JSNumber].
  set (n := dw - lm - rm - hg) in *.
  rewrite (float_add_half lm n) by lia.
  rewrite (half_add_float (2 * lm + n) hg) by lia.
  replace (2 * lm + n + 2 * hg) with (n + 2 * (lm + hg)) by lia.
  rewrite (half_add_half (lm + hg) n) by lia.
  replace (n + 2 * (lm + hg)) with (2 * lm + n + 2 * hg) by lia.
  rewrite float_sub_exact by lia.
  replace (n + (lm + hg)) with (dw - rm) by (unfold n; lia).
  repeat match goal with
    | |- context [ (Math_round (?x * lit 10) / lit 10)%num ] =>
        change (Math_round (x * lit 10) / lit 10)%num with (r x)
    end.
  rewrite (r_int lm), (r_int (dw - rm)) by lia.
  rewrite (r_half (2 * lm + n)), (r_half (2 * lm + n + 2 * hg)) by lia.
  reflexivity.
Qed.

(** X2. For integer keys in the ranges 300-1200 ([doorWidth]), 0-300 (the
    side margins and the horizontal gap), 0-50 ([beadingWidth]) and 0-600
    ([mdfPanelWidth]), the panel, a gap on each side and the two beading
    strips make up the unit width exactly, in doubles:
    [mdfPanelWidth + 2*panelBeadingGap + 2*beadingWidth] is
    [(doorWidth - leftMargin - rightMargin - horizontalGap)/2], for the
    unrounded [panelBeadingGap] that the validity test reads. *)
Theorem panel_fits_unit_width (c : DoorConfig float) (dw lm rm hg bw w : Z) :
  300 <= dw <= 1200 -> 0 <= lm <= 300 -> 0 <= rm <= 300 -> 0 <= hg <= 300 ->
  0 <= bw <= 50 -> 0 <= w <= 600 ->
  c.(doorWidth) = float_of_Z dw -> c.(leftMargin) = float_of_Z lm ->
  c.(rightMargin) = float_of_Z rm -> c.(horizontalGap) = float_of_Z hg ->
  c.(beadingWidth) = float_of_Z bw -> c.(mdfPanelWidth) = float_of_Z w ->
  (c.(mdfPanelWidth) + 2 * panelBeadingGap c + 2 * c.(beadingWidth))%float
  = ((c.(doorWidth) - c.(leftMargin) - c.(rightMargin) - c.(horizontalGap))
     / 2)%float.
Proof.
  intros Hdw Hlm Hrm Hhg Hbw Hw Edw Elm Erm Ehg Ebw Ew.
  change ((c.(doorWidth) - c.(leftMargin) - c.(rightMargin)
           - c.(horizontalGap)) / 2)%float with (panelUnitWidth c).
  rewrite (panelUnitWidth_int c dw lm rm hg Hdw Hlm Hrm Hhg Edw Elm Erm Ehg).
  rewrite (panelBeadingGap_int c dw lm rm hg bw w Hdw Hlm Hrm Hhg Hbw Hw
             Edw Elm Erm Ehg Ebw Ew).
  rewrite Ew, Ebw. change 2%float with (float_of_Z 2).
  set (n := dw - lm - rm - hg).
  assert (Hq : (float_of_Z 2
                * (half_of (n - 4 * bw - 2 * w) / float_of_Z 2))%float
               = half_of (n - 4 * bw - 2 * w)).
  { apply FloatAxioms.Leibniz.eqb_spec.
    pose proof double_quarter_all as A. rewrite forallb_forall in A.
    apply A, In_zrange. unfold n. lia. }
  rewrite Hq. rewrite float_add_half by (unfold n; lia).
  rewrite float_double_exact by lia.
  rewrite half_add_float by (unfold n; lia).
  f_equal. lia.
Qed.

End Binary64.

(** ** The zoom of the preview *)

Section Zoom.

(** *** Comparisons of doubles *)

Lemma SFcompare_antisym (a b : spec_float) :
  SFcompare b a = option_map CompOpp (SFcompare a b).
Proof.
  destruct a as [sa|sa| |sa ma ea], b as [sb|sb| |sb mb eb]; cbn;
    try reflexivity;
    try (destruct sa; reflexivity); try (destruct sb; reflexivity);
    try (destruct sa, sb; reflexivity).
  destruct sa, sb; cbn; try reflexivity;
    rewrite (Z.compare_antisym ea eb);
    destruct (ea ?= eb)%Z; cbn; try reflexivity;
    rewrite (Pos.compare_cont_antisym ma mb Eq); cbn;
    destruct (Pos.compare_cont Eq ma mb); reflexivity.
Qed.

Lemma SFcompare_number (a b : spec_float) :
  SF_number a = true -> SF_number b = true -> SFcompare a b <> None.
Proof.
  destruct a as [sa|sa| |sa ma ea], b as [sb|sb| |sb mb eb]; cbn;
    intros; try discriminate.
Qed.

Lemma SFleb_number_l (a b : spec_float) : SFleb a b = true -> SF_number a = true.
Proof. destruct a; cbn; try reflexivity. discriminate. Qed.

Lemma SFleb_number_r (a b : spec_float) : SFleb a b = true -> SF_number b = true.
Proof. destruct a, b; cbn; try reflexivity; discriminate. Qed.

Lemma SFltb_leb (a b : spec_float) : SFltb a b = true -> SFleb a b = true.
Proof. unfold SFltb, SFleb. destruct (SFcompare a b) as [[]|]; congruence. Qed.

Lemma SFltb_false_leb (a b : spec_float) :
  SF_number a = true -> SF_number b = true ->
  SFltb a b = false -> SFleb b a = true.
Proof.
  intros Ha Hb. unfold SFltb, SFleb. rewrite (SFcompare_antisym a b).
  pose proof (SFcompare_number a b Ha Hb) as H.
  destruct (SFcompare a b) as [[]|]; cbn; congruence.
Qed.

Lemma SFeqb_refl (a : spec_float) : SF_number a = true -> SFeqb a a = true.
Proof.
  unfold SFeqb. destruct a as [s|s| |s m e]; cbn; try reflexivity; try discriminate.
  - destruct s; reflexivity.
  - intros _. rewrite Z.compare_refl, Pos.compare_cont_refl. destruct s; reflexivity.
Qed.

Lemma is_nan_number (x : float) : SF_number (Prim2SF x) = true -> PrimFloat.is_nan x = false.
Proof.
  intros H. unfold PrimFloat.is_nan. rewrite FloatAxioms.eqb_spec, SFeqb_refl by exact H.
  reflexivity.
Qed.

Lemma leb_number_l (x y : float) : PrimFloat.leb x y = true -> SF_number (Prim2SF x) = true.
Proof. rewrite FloatAxioms.leb_spec. apply SFleb_number_l. Qed.

Lemma leb_number_r (x y : float) : PrimFloat.leb x y = true -> SF_number (Prim2SF y) = true.
Proof. rewrite FloatAxioms.leb_spec. apply SFleb_number_r. Qed.

Lemma ltb_leb (x y : float) : PrimFloat.ltb x y = true -> PrimFloat.leb x y = true.
Proof. rewrite FloatAxioms.ltb_spec, FloatAxioms.leb_spec. apply SFltb_leb. Qed.

Lemma ltb_false_leb (x y : float) :
  SF_number (Prim2SF x) = true -> SF_number (Prim2SF y) = true ->
  PrimFloat.ltb x y = false -> PrimFloat.leb y x = true.
Proof. rewrite FloatAxioms.ltb_spec, FloatAxioms.leb_spec. apply SFltb_false_leb. Qed.

(** *** Products

    Rounding a non-negative mantissa never yields a NaN. *)
Lemma shr_1_nonneg mrs : (0 <= shr_m mrs)%Z -> (0 <= shr_m (shr_1 mrs))%Z.
Proof.
  destruct mrs as [m r s]. cbn [shr_m]. intros H.
  destruct m as [|[p|p|]|p]; cbn; lia.
Qed.

Lemma iter_pos_shr_1_nonneg p : forall mrs,
  (0 <= shr_m mrs)%Z -> (0 <= shr_m (iter_pos shr_1 p mrs))%Z.
Proof.
  induction p as [p IH|p IH|]; intros mrs H; cbn [iter_pos].
  - apply IH, IH, shr_1_nonneg, H.
  - apply IH, IH, H.
  - apply shr_1_nonneg, H.
Qed.

Lemma shr_fexp_nonneg prec emax m e l :
  (0 <= m)%Z -> (0 <= shr_m (fst (shr_fexp prec emax m e l)))%Z.
Proof.
  intros H. unfold shr_fexp, shr.
  assert (H0 : (0 <= shr_m (shr_record_of_loc m l))%Z)
    by (destruct l as [|[]]; exact H).
  destruct (_ - e)%Z; cbn [fst]; try exact H0.
  apply iter_pos_shr_1_nonneg, H0.
Qed.

Lemma round_nearest_even_nonneg m l :
  (0 <= m)%Z -> (0 <= round_nearest_even m l)%Z.
Proof.
  intros H. destruct l as [|[]]; cbn; try lia. destruct (Z.even m); lia.
Qed.

Lemma binary_round_aux_number prec emax s m e l :
  (0 <= m)%Z -> SF_number (binary_round_aux prec emax s m e l) = true.
Proof.
  intros H. unfold binary_round_aux.
  pose proof (shr_fexp_nonneg prec emax m e l H) as H1.
  destruct (shr_fexp prec emax m e l) as [mrs' e']. cbn [fst] in H1.
  pose proof (shr_fexp_nonneg prec emax _ e' loc_Exact
                (round_nearest_even_nonneg _ (loc_of_shr_record mrs') H1)) as H2.
  destruct (shr_fexp prec emax _ e' loc_Exact) as [mrs'' e'']. cbn [fst] in H2.
  destruct (shr_m mrs'') as [|p|p]; [reflexivity| |lia].
  destruct (e'' <=? _)%Z; reflexivity.
Qed.

Lemma SFmul_finite_number prec emax s m e s' m' e' :
  SF_number (SFmul prec emax (S754_finite s m e) (S754_finite s' m' e')) = true.
Proof. cbn [SFmul]. apply binary_round_aux_number. lia. Qed.

Lemma SF_between_finite (b c P : spec_float) mb eb mc ec :
  b = S754_finite false mb eb -> c = S754_finite false mc ec ->
  SFleb b P = true -> SFleb P c = true ->
  exists m e, P = S754_finite false m e.
Proof.
  intros -> -> H1 H2.
  destruct P as [s|s| |s m e]; try destruct s; cbn in H1, H2;
    try discriminate H1; try discriminate H2.
  exists m, e. reflexivity.
Qed.

Lemma zoom_times_number (z d : float) md ed :
  zoom_in_range z -> Prim2SF d = S754_finite false md ed ->
  SF_number (Prim2SF (z * d)) = true.
Proof.
  intros [H1 H2] Hd. rewrite FloatAxioms.leb_spec in H1, H2.
  destruct (SF_between_finite _ _ (Prim2SF z) _ _ _ _ eq_refl eq_refl H1 H2)
    as (m & e & E).
  rewrite FloatAxioms.mul_spec, E, Hd. apply SFmul_finite_number.
Qed.

(** *** The clamp *)

Lemma Math_max_half (x : float) :
  SF_number (Prim2SF x) = true -> PrimFloat.leb 0.5 (Math_max x 0.5) = true.
Proof.
  intros Hx. unfold Math_max.
  rewrite (is_nan_number x Hx). cbn [orb].
  change (PrimFloat.is_nan 0.5) with false. cbv iota.
  destruct (PrimFloat.ltb x 0.5) eqn:L1; [reflexivity|].
  destruct (PrimFloat.ltb 0.5 x) eqn:L2; [apply ltb_leb, L2|].
  assert (H : PrimFloat.leb 0.5 x = true)
    by (apply ltb_false_leb; [exact Hx|reflexivity|exact L1]).
  destruct (PrimFloat.classify x); try exact H; reflexivity.
Qed.

Lemma Math_min_eight (m : float) :
  PrimFloat.leb 0.5 m = true -> zoom_in_range (Math_min m 8).
Proof.
  intros Hm. pose proof (leb_number_r _ _ Hm) as Hn.
  unfold Math_min. rewrite (is_nan_number m Hn). cbn [orb].
  change (PrimFloat.is_nan 8) with false. cbv iota.
  destruct (PrimFloat.ltb m 8) eqn:L1; [split; [exact Hm|apply ltb_leb, L1]|].
  destruct (PrimFloat.ltb 8 m) eqn:L2; [split; reflexivity|].
  assert (H : PrimFloat.leb m 8 = true)
    by (apply ltb_false_leb; [reflexivity|exact Hn|exact L2]).
  destruct (PrimFloat.classify m); try (split; [exact Hm|exact H]); split; reflexivity.
Qed.

Lemma handleWheel_in_range (deltaY z : float) :
  zoom_in_range z -> zoom_in_range (handleWheel deltaY z).
Proof.
  intros Hz. unfold handleWheel. cbv zeta.
  apply Math_min_eight, Math_max_half.
  destruct (PrimFloat.ltb 0 deltaY).
  - eapply zoom_times_number; [exact Hz|vm_compute; reflexivity].
  - eapply zoom_times_number; [exact Hz|vm_compute; reflexivity].
Qed.

(** X5. The zoom of the preview starts at 1 and, on doubles, stays between
    0.5 and 8 whatever wheel events and double clicks arrive; in particular
    it is never a NaN or a zero, so the view box size [vbW / zoom] divides by
    a double of at least 0.5. *)
Theorem zoom_stays_in_range (events : list ZoomEvent) :
  zoom_in_range (fold_left zoomStep events 1%float).
Proof.
  assert (R : forall z0, zoom_in_range z0 -> zoom_in_range (fold_left zoomStep events z0)).
  { induction events as [|e es IH]; intros z0 Hz; cbn [fold_left]; [exact Hz|].
    apply IH. destruct e as [deltaY|]; cbn [zoomStep].
    - apply handleWheel_in_range, Hz.
    - split; reflexivity. }
  apply R. split; reflexivity.
Qed.

End Zoom.

(** ** Evaluations *)

Section Evaluations.

(** *** [Math.round] on doubles *)

Example float_round_ties_up :
  float_round 2.5%float = 3%float /\ float_round (-2.5)%float = (-2)%float.
Proof. split; vm_compute; reflexivity. Qed.

Example float_round_below_half :
  float_round 0.49999999999999994%float = 0%float
  /\ float_round (-0.5)%float = (-0)%float.
Proof. split; vm_compute; reflexivity. Qed.

Example float_round_large :
  float_round 4503599627370495.5%float = 4503599627370496%float
  /\ float_round 1e300%float = 1e300%float.
Proof. split; vm_compute; reflexivity. Qed.

(** *** Scenario A *)

(** C1, as amended.  On [defaultConfig], in binary64: [availableWidth] = 522,
    [panelUnitWidth] = 261, returned [panelBeadingGap] = 3, [availableHeight]
    = 1701, [topVerticalBeading] = 680.4, [bottomVerticalBeading] = 1020.6,
    [topPanelHeight] = 634.4, [bottomPanelHeight] = 974.6,
    [topHorizontalBeading] = 261, [topHorizontalBeadingShort] = 221 and
    [isValid] = true. *)
Theorem scenario_A :
  let c : DoorConfig float := defaultConfig in
  let res := calculateCuts c in
  availableWidth c = 522%float
  /\ panelUnitWidth c = 261%float
  /\ CutResult.panelBeadingGap res = 3%float
  /\ availableHeight c = 1701%float
  /\ CutResult.topVerticalBeading res = 680.4%float
  /\ CutResult.bottomVerticalBeading res = 1020.6%float
  /\ CutResult.topPanelHeight res = 634.4%float
  /\ CutResult.bottomPanelHeight res = 974.6%float
  /\ CutResult.topHorizontalBeading res = 261%float
  /\ CutResult.topHorizontalBeadingShort res = 221%float
  /\ CutResult.isValid res = true.
Proof. vm_compute. repeat split. Qed.

(** C1, the claimed values: 602, 301 and 23 leave the horizontal gap out of
    [availableWidth]; the code subtracts it. *)
Lemma scenario_A_claimed_values_fail :
  let c : DoorConfig float := defaultConfig in
  let res := calculateCuts c in
  availableWidth c <> 602%float
  /\ panelUnitWidth c <> 301%float
  /\ CutResult.panelBeadingGap res <> 23%float
  /\ CutResult.topPanelHeight res <> 594.4%float
  /\ CutResult.bottomPanelHeight res <> 934.6%float
  /\ CutResult.topHorizontalBeading res <> 301%float
  /\ CutResult.topHorizontalBeadingShort res <> 261%float.
Proof. cbv zeta. repeat split; float_differ. Qed.

(** *** The returned widths *)

Lemma derivation_formulas_witness :
  let c : DoorConfig float := defaultConfig in
  let m := (762 - 80 - 80 - 80 - 4 * 20 - 2 * 215)%Z in
  ((300 <= 762 <= 1200)%Z /\ (0 <= 80 <= 300)%Z /\ (0 <= 20 <= 50)%Z
   /\ (0 <= 215 <= 600)%Z
   /\ c.(doorWidth) = float_of_Z 762 /\ c.(leftMargin) = float_of_Z 80
   /\ c.(rightMargin) = float_of_Z 80 /\ c.(horizontalGap) = float_of_Z 80
   /\ c.(beadingWidth) = float_of_Z 20
   /\ c.(mdfPanelWidth) = float_of_Z 215)
  /\ (CutResult.panelBeadingGap (calculateCuts c)
        = (float_of_Z ((5 * m + 1) / 2) / 10)%float
      /\ CutResult.panelWidth (calculateCuts c) = c.(mdfPanelWidth)
      /\ panelUnitWidth c = (float_of_Z (762 - 80 - 80 - 80) / 2)%float
      /\ CutResult.topHorizontalBeading (calculateCuts c) = panelUnitWidth c
      /\ CutResult.bottomHorizontalBeading (calculateCuts c)
         = panelUnitWidth c).
Proof.
  cbv zeta.
  assert (Hdw : (300 <= 762 <= 1200)%Z) by lia.
  assert (Hm : (0 <= 80 <= 300)%Z) by lia.
  assert (Hbw : (0 <= 20 <= 50)%Z) by lia.
  assert (Hw : (0 <= 215 <= 600)%Z) by lia.
  assert (E1 : (@defaultConfig float _).(doorWidth) = float_of_Z 762)
    by reflexivity.
  assert (E2 : (@defaultConfig float _).(leftMargin) = float_of_Z 80)
    by reflexivity.
  assert (E3 : (@defaultConfig float _).(beadingWidth) = float_of_Z 20)
    by reflexivity.
  assert (E4 : (@defaultConfig float _).(mdfPanelWidth) = float_of_Z 215)
    by reflexivity.
  split; [repeat split; try reflexivity; lia|].
  apply (proj2 (proj2 derivation_formulas) defaultConfig
           762 80 80 80 20 215 Hdw Hm Hm Hm Hbw Hw E1 E2 E2 E2 E3 E4)%Z.
Defined.

(** *** Row sum *)

(** C2, as claimed, fails on [defaultConfig]: 680.4 + 80 + 1020.6 is 1781,
    80 more than [availableHeight] = 1701. *)
Lemma row_sum_with_gap_fails :
  let c : DoorConfig float := defaultConfig in
  let res := calculateCuts c in
  let avH :=
    (c.(doorHeight) - c.(topMargin) - c.(bottomMargin)
     - c.(verticalGap))%float in
  avH = 1701%float
  /\ (CutResult.topVerticalBeading res + c.(verticalGap)
      + CutResult.bottomVerticalBeading res - avH)%float = 80%float
  /\ PrimFloat.leb
       (PrimFloat.abs
          (CutResult.topVerticalBeading res + c.(verticalGap)
           + CutResult.bottomVerticalBeading res - avH)%float)
       0.05%float = false.
Proof. cbv zeta. repeat split; vm_compute; reflexivity. Qed.

(** Without the gap, 0.05 would not do, and the doubles pass 0.1 itself: at
    [ratio15Config] the rows, 255.15 and 1445.85 high, are returned as 255.2
    and 1445.9, and the double of their sum minus 1701 is above the double
    [0.1]. *)
Lemma row_sum_tenth_passed :
  let c : DoorConfig float := ratio15Config in
  let res := calculateCuts c in
  let avH :=
    (c.(doorHeight) - c.(topMargin) - c.(bottomMargin)
     - c.(verticalGap))%float in
  CutResult.topVerticalBeading res = 255.2%float
  /\ CutResult.bottomVerticalBeading res = 1445.9%float
  /\ avH = 1701%float
  /\ PrimFloat.ltb 0.1%float
       (CutResult.topVerticalBeading res + CutResult.bottomVerticalBeading res
        - avH)%float = true.
Proof. cbv zeta. repeat split; vm_compute; reflexivity. Qed.

Lemma row_sum_within_tenth_witness :
  let c : DoorConfig float := ratio15Config in
  let res := calculateCuts c in
  let avH :=
    (c.(doorHeight) - c.(topMargin) - c.(bottomMargin)
     - c.(verticalGap))%float in
  (is_int_in 500 2500 c.(doorHeight) /\ is_int_in 0 300 c.(topMargin)
   /\ is_int_in 0 300 c.(bottomMargin) /\ is_int_in 0 300 c.(verticalGap)
   /\ is_int_in 0 100 c.(topPanelRatio))
  /\ PrimFloat.leb
       (PrimFloat.abs
          (CutResult.topVerticalBeading res
           + CutResult.bottomVerticalBeading res - avH)%float)
       0.100000000001%float = true.
Proof.
  cbv zeta.
  assert (H1 : is_int_in 500 2500 (@ratio15Config float _).(doorHeight))
    by (exists 1981%Z; split; [lia|reflexivity]).
  assert (H2 : is_int_in 0 300 (@ratio15Config float _).(topMargin))
    by (exists 100%Z; split; [lia|reflexivity]).
  assert (H3 : is_int_in 0 300 (@ratio15Config float _).(bottomMargin))
    by (exists 100%Z; split; [lia|reflexivity]).
  assert (H4 : is_int_in 0 300 (@ratio15Config float _).(verticalGap))
    by (exists 80%Z; split; [lia|reflexivity]).
  assert (H5 : is_int_in 0 100 (@ratio15Config float _).(topPanelRatio))
    by (exists 15%Z; split; [lia|reflexivity]).
  split; [repeat split; assumption|].
  apply (row_sum_within_tenth ratio15Config H1 H2 H3 H4 H5).
Defined.

(** *** Short points *)

(** C5, as claimed, fails with integer keys.  At [door501Config] the top
    row is [221 * 0.35] high: the long point is returned as 77.4 and the
    short point as 37.3, a tenth away from [77.4 - 40].  At [door1989Config]
    the bottom vertical long point is 1025.4 and the short point 985.4, while
    [1025.4 - 40] is another double. *)
Lemma short_point_law_fails :
  let c : DoorConfig float := door501Config in
  let res := calculateCuts c in
  let c' : DoorConfig float := door1989Config in
  let res' := calculateCuts c' in
  (CutResult.topVerticalBeading res = 77.4%float
   /\ CutResult.topVerticalBeadingShort res = 37.3%float
   /\ CutResult.topVerticalBeadingShort res
      <> (CutResult.topVerticalBeading res - 2 * c.(beadingWidth))%float
   /\ PrimFloat.ltb 0.09%float
        (CutResult.topVerticalBeading res - 2 * c.(beadingWidth)
         - CutResult.topVerticalBeadingShort res)%float = true)
  /\ (CutResult.bottomVerticalBeading res' = 1025.4%float
      /\ CutResult.bottomVerticalBeadingShort res' = 985.4%float
      /\ CutResult.bottomVerticalBeadingShort res'
         <> (CutResult.bottomVerticalBeading res'
             - 2 * c'.(beadingWidth))%float).
Proof.
  cbv zeta. split; [split; [|split; [|split]]|split; [|split]];
    try (vm_compute; reflexivity); float_differ.
Qed.

Lemma short_point_law_witness :
  let c : DoorConfig float := defaultConfig in
  let res := calculateCuts c in
  (is_int_in 300 1200 c.(doorWidth) /\ is_int_in 0 300 c.(leftMargin)
   /\ is_int_in 0 300 c.(rightMargin) /\ is_int_in 0 300 c.(horizontalGap)
   /\ is_int_in 0 50 c.(beadingWidth))
  /\ (CutResult.topHorizontalBeadingShort res
      = (CutResult.topHorizontalBeading res - 2 * c.(beadingWidth))%float
      /\ CutResult.bottomHorizontalBeadingShort res
         = (CutResult.bottomHorizontalBeading res
            - 2 * c.(beadingWidth))%float).
Proof.
  cbv zeta.
  assert (H1 : is_int_in 300 1200 (@defaultConfig float _).(doorWidth))
    by (exists 762%Z; split; [lia|reflexivity]).
  assert (H2 : is_int_in 0 300 (@defaultConfig float _).(leftMargin))
    by (exists 80%Z; split; [lia|reflexivity]).
  assert (H3 : is_int_in 0 300 (@defaultConfig float _).(rightMargin))
    by (exists 80%Z; split; [lia|reflexivity]).
  assert (H4 : is_int_in 0 300 (@defaultConfig float _).(horizontalGap))
    by (exists 80%Z; split; [lia|reflexivity]).
  assert (H5 : is_int_in 0 50 (@defaultConfig float _).(beadingWidth))
    by (exists 20%Z; split; [lia|reflexivity]).
  split; [repeat split; assumption|].
  apply (proj2 (proj2 short_point_law) defaultConfig H1 H2 H3 H4 H5).
Defined.

(** *** Errors *)

(** The tests of [errors] read the unrounded constants: at
    [tightPanelConfig] the gap is about -0.01, the too-wide message is pushed
    and the result is invalid, while the returned [panelBeadingGap] is
    rounded to a zero. *)
Lemma errors_read_unrounded_gap :
  let c : DoorConfig float := tightPanelConfig in
  let res := calculateCuts c in
  PrimFloat.ltb (panelBeadingGap c) (-0.01)%float = true
  /\ CutResult.errors res = [panelBeadingGap_error]
  /\ CutResult.isValid res = false
  /\ CutResult.panelBeadingGap res = (-0)%float.
Proof. cbv zeta. repeat split; vm_compute; reflexivity. Qed.

(** *** Handle warning *)

(** C6, as claimed, fails at [touchingHandleConfig]: the handle reaches past
    the left margin (140 > 80) and its band, 900 to 1060, meets the top row's
    span, 100 to 900, in the point 900, yet no warning is pushed, because the
    source compares with [<] and [>]: [handleTop] and [topUnitBottom] are
    the same double. *)
Lemma handle_warning_closed_band_fails :
  let c : DoorConfig float := touchingHandleConfig in
  let avH :=
    (c.(doorHeight) - c.(topMargin) - c.(bottomMargin)
     - c.(verticalGap))%float in
  let topH := (avH * (c.(topPanelRatio) / 100))%float in
  let botH := (avH * ((100 - c.(topPanelRatio)) / 100))%float in
  ~ (CutResult.handleWarnings (calculateCuts c) <> [] <->
     PrimFloat.ltb c.(leftMargin) c.(handleSpread) = true
     /\ (closed_intervals_meet
           (c.(handleHeight) - 80)%float (c.(handleHeight) + 80)%float
           c.(topMargin) (c.(topMargin) + topH)%float
         \/ closed_intervals_meet
              (c.(handleHeight) - 80)%float (c.(handleHeight) + 80)%float
              (c.(topMargin) + topH + c.(verticalGap))%float
              (c.(topMargin) + topH + c.(verticalGap) + botH)%float)).
Proof.
  cbv zeta. intros [_ H].
  apply H; [|reflexivity].
  split; [vm_compute; reflexivity|].
  left. exists 900%float. repeat split; vm_compute; reflexivity.
Qed.

(** The values behind it. *)
Lemma touching_handle_values :
  let c : DoorConfig float := touchingHandleConfig in
  CutResult.handleWarnings (calculateCuts c) = []
  /\ handleTop c = 900%float /\ topUnitBottom c = 900%float
  /\ PrimFloat.ltb (handleMargin c) c.(handleSpread) = true.
Proof. cbv zeta. repeat split; vm_compute; reflexivity. Qed.

(** The comparisons read the doubles the code computes.  At
    [roundedSpanConfig] the rows are [1537 * 0.2] and [1537 * 0.8] high; the
    bottom row would end at 1717, where the handle band starts, but its
    double is the next one above 1717, so there is a warning. *)
Lemma handle_warning_reads_doubles :
  let c : DoorConfig float := roundedSpanConfig in
  handleTop c = 1717%float
  /\ bottomUnitBottom c = 1717.0000000000002%float
  /\ CutResult.handleWarnings (calculateCuts c) = [handleWarning c].
Proof. cbv zeta. repeat split; vm_compute; reflexivity. Qed.

Lemma handle_warning_threshold_witness :
  let c : DoorConfig float := roundedSpanConfig in
  CutResult.handleWarnings (calculateCuts c) <> [].
Proof.
  cbv zeta. apply (proj2 (handle_warning_threshold roundedSpanConfig)).
  split; [vm_compute; reflexivity|].
  right. vm_compute. reflexivity.
Defined.

(** At [bothRowsHandleConfig] the handle band overlaps both rows. *)
Lemma handle_band_in_both_rows :
  let c : DoorConfig float := bothRowsHandleConfig in
  (c.(handleSpread) >? handleMargin c)%num = true
  /\ overlapsTop c = true /\ overlapsBottom c = true.
Proof. vm_compute. repeat split. Qed.

Lemma handleWarnings_at_most_one_witness :
  let c : DoorConfig float := bothRowsHandleConfig in
  ((c.(handleSpread) >? handleMargin c)%num = true
   /\ overlapsTop c = true /\ overlapsBottom c = true)
  /\ (List.length (CutResult.handleWarnings (calculateCuts c)) <= 1)%nat
  /\ CutResult.handleWarnings (calculateCuts c) = [handleWarning c].
Proof.
  cbv zeta. split; [vm_compute; repeat split|].
  split.
  - apply (proj1 (handleWarnings_at_most_one bothRowsHandleConfig)).
  - apply (proj2 (handleWarnings_at_most_one bothRowsHandleConfig));
      vm_compute; reflexivity.
Defined.

(** *** Validity as a function of the panel width *)




(** *** Handle indent *)

Lemma handleIndent_noninterference_witness :
  let c1 : DoorConfig float := with_handleIndent defaultConfig 100%float in
  let c2 : DoorConfig float := defaultConfig in
  agree_except_handleIndent c1 c2 /\ calculateCuts c1 = calculateCuts c2.
Proof.
  cbv zeta.
  assert (H : agree_except_handleIndent
                (with_handleIndent (@defaultConfig float _) 100%float)
                defaultConfig)
    by (unfold agree_except_handleIndent; cbn; repeat split).
  split; [exact H|].
  apply (handleIndent_noninterference _ _ H).
Defined.

End Evaluations.

(** ** Local storage *)

Section LocalStorageLaws.

Local Open Scope string_scope.
Local Open Scope list_scope.

Lemma getItem_setItem_same k v s : LocalStorage.getItem k (LocalStorage.setItem k v s) = Some v.
Proof.
  unfold LocalStorage.getItem.
  induction s as [|e s IH]; cbn.
  - rewrite String.eqb_refl. reflexivity.
  - destruct (String.eqb (fst e) k) eqn:E; cbn.
    + rewrite String.eqb_refl. reflexivity.
    + rewrite E. exact IH.
Qed.

Lemma getItem_setItem_other k k' v s : k <> k' ->
  LocalStorage.getItem k' (LocalStorage.setItem k v s) = LocalStorage.getItem k' s.
Proof.
  intros Hk. unfold LocalStorage.getItem.
  induction s as [|e s IH]; cbn.
  - destruct (String.eqb k k') eqn:E; [apply String.eqb_eq in E; contradiction|reflexivity].
  - destruct (String.eqb (fst e) k) eqn:E; cbn.
    + apply String.eqb_eq in E. rewrite E.
      destruct (String.eqb k k') eqn:E'; [apply String.eqb_eq in E'; contradiction|reflexivity].
    + destruct (String.eqb (fst e) k'); [reflexivity|exact IH].
Qed.

Lemma getItem_removeItem_same k s : LocalStorage.getItem k (LocalStorage.removeItem k s) = None.
Proof.
  unfold LocalStorage.getItem, LocalStorage.removeItem.
  induction s as [|e s IH]; cbn; [reflexivity|].
  destruct (String.eqb (fst e) k) eqn:E; cbn; [exact IH|]. rewrite E. exact IH.
Qed.

Lemma getItem_removeItem_other k k' s : k <> k' ->
  LocalStorage.getItem k' (LocalStorage.removeItem k s) = LocalStorage.getItem k' s.
Proof.
  intros Hk. unfold LocalStorage.getItem, LocalStorage.removeItem.
  induction s as [|e s IH]; cbn; [reflexivity|].
  destruct (String.eqb (fst e) k) eqn:E; cbn.
  - apply String.eqb_eq in E. rewrite E.
    destruct (String.eqb k k') eqn:E'; [apply String.eqb_eq in E'; contradiction|exact IH].
  - destruct (String.eqb (fst e) k'); [reflexivity|exact IH].
Qed.

Lemma append_inj_l (p a b : string) : (p ++ a)%string = (p ++ b)%string -> a = b.
Proof. induction p as [|ch p IH]; cbn; intros H; [exact H|]. injection H as H. auto. Qed.

Lemma prefix_append (p k : string) : String.prefix p (p ++ k)%string = true.
Proof.
  induction p as [|ch p IH]; cbn; [destruct k; reflexivity|].
  destruct (Ascii.ascii_dec ch ch); [exact IH|contradiction].
Qed.

Lemma slice_append (p k : string) : slice (String.length p) (p ++ k)%string = k.
Proof. induction p as [|ch p IH]; cbn; [reflexivity|exact IH]. Qed.

Lemma prefix_slice (p k : string) : String.prefix p k = true -> (p ++ slice (String.length p) k)%string = k.
Proof.
  revert k. induction p as [|ch p IH]; intros k H; cbn; [reflexivity|].
  destruct k as [|ch' k]; cbn in H; [discriminate|].
  destruct (Ascii.ascii_dec ch ch'); [|discriminate]. subst. f_equal. auto.
Qed.

End LocalStorageLaws.

Section StorageLaws.

Context {T : Type}.
Variable stringify : T -> string.
Variable parse : string -> option T.
Variable accepts : LocalStorage.t -> bool.

(** X6. Reading back what was stored: when the browser accepts the write and
    the value survives [JSON.parse] after [JSON.stringify], [storage.get]
    after [storage.set] on the same key returns the stored value, whatever
    the default and whatever was stored before. *)
Theorem storage_get_set (key : string) (value d : T) (ls : LocalStorage.t) :
  parse (stringify value) = Some value ->
  accepts (LocalStorage.setItem (STORAGE_PREFIX ++ key)%string (stringify value) ls) = true ->
  storage_get parse key d (storage_set stringify accepts key value ls) = value.
Proof.
  intros Hrt Hacc. unfold storage_get, storage_set. cbv zeta.
  rewrite Hacc, getItem_setItem_same, Hrt. reflexivity.
Qed.

(** X7. [storage.set] on one key does not change what [storage.get] returns
    for another key, whether or not the write is accepted. *)
Theorem storage_set_other (key key' : string) (value d : T) (ls : LocalStorage.t) :
  key <> key' ->
  storage_get parse key' d (storage_set stringify accepts key value ls)
  = storage_get parse key' d ls.
Proof.
  intros Hk. unfold storage_get, storage_set. cbv zeta.
  destruct (accepts _); [|reflexivity].
  rewrite getItem_setItem_other; [reflexivity|].
  intros E. apply append_inj_l in E. contradiction.
Qed.

(** X8. After [storage.remove], [storage.get] on that key returns the
    default. *)
Theorem storage_get_remove (key : string) (d : T) (ls : LocalStorage.t) :
  storage_get parse key d (storage_remove key ls) = d.
Proof.
  unfold storage_get, storage_remove. rewrite getItem_removeItem_same. reflexivity.
Qed.

End StorageLaws.

Section StorageKeysLaws.

Local Open Scope string_scope.
Local Open Scope list_scope.

Lemma storage_keys_filter (ls : LocalStorage.t) :
  storage_keys ls =
  map (slice (String.length STORAGE_PREFIX))
      (filter (String.prefix STORAGE_PREFIX) (map fst ls)).
Proof.
  unfold storage_keys, LocalStorage.length, LocalStorage.key. cbv zeta.
  set (f := fun k => if String.prefix STORAGE_PREFIX k
                     then [slice (String.length STORAGE_PREFIX) k] else []).
  assert (G : forall (l : list (string * string)) (pre : list (string * string)),
     flat_map (fun i => match option_map fst (nth_error (pre ++ l) i) with
                        | Some key => f key | None => [] end)
              (seq (List.length pre) (List.length l))
     = flat_map f (map fst l)).
  { induction l as [|e l IH]; intros pre; cbn [List.length seq flat_map map]; [reflexivity|].
    rewrite nth_error_app2 by lia. rewrite Nat.sub_diag. cbn [nth_error option_map].
    f_equal.
    specialize (IH (pre ++ [e])). rewrite <- app_assoc in IH. cbn [app] in IH.
    rewrite length_app in IH. cbn [List.length] in IH. rewrite Nat.add_1_r in IH.
    exact IH. }
  specialize (G ls []). cbn [app List.length] in G. 
  unfold f in G. rewrite G. clear G.
  induction (map fst ls) as [|k ks IH]; cbn [flat_map filter map]; [reflexivity|].
  destruct (String.prefix STORAGE_PREFIX k); cbn [map app]; rewrite IH; reflexivity.
Qed.

(** An entry under the prefix is listed. *)
Lemma storage_keys_listed (ls : LocalStorage.t) (key : string) :
  In (STORAGE_PREFIX ++ key)%string (map fst ls) -> In key (storage_keys ls).
Proof.
  intros Hin. rewrite storage_keys_filter, in_map_iff.
  exists (STORAGE_PREFIX ++ key)%string. split.
  - apply slice_append.
  - apply filter_In. split; [exact Hin|apply prefix_append].
Qed.

(** X9. [storage.keys] lists a key exactly when local storage holds an entry
    named by the prefix followed by that key: entries of other applications
    are not listed and the prefix is stripped. *)
Theorem storage_keys_spec (ls : LocalStorage.t) (key : string) :
  In key (storage_keys ls) <-> In (STORAGE_PREFIX ++ key)%string (map fst ls).
Proof.
  rewrite storage_keys_filter, in_map_iff. split.
  - intros (k & <- & Hk). apply filter_In in Hk. destruct Hk as [Hin Hp].
    rewrite prefix_slice by exact Hp. exact Hin.
  - intros Hin. exists (STORAGE_PREFIX ++ key)%string. split.
    + apply slice_append.
    + apply filter_In. split; [exact Hin|apply prefix_append].
Qed.

Lemma fold_remove_getItem (keys : list string) (ls : LocalStorage.t) (k : string) :
  LocalStorage.getItem k (fold_left (fun ls key => storage_remove key ls) keys ls)
  = if existsb (fun key => String.eqb (STORAGE_PREFIX ++ key) k) keys then None
    else LocalStorage.getItem k ls.
Proof.
  revert ls. induction keys as [|key keys IH]; intros ls; cbn [fold_left existsb]; [reflexivity|].
  rewrite IH. unfold storage_remove.
  destruct (String.eqb (STORAGE_PREFIX ++ key) k) eqn:E; cbn [orb].
  - apply String.eqb_eq in E. subst k. rewrite getItem_removeItem_same.
    destruct (existsb _ keys); reflexivity.
  - rewrite getItem_removeItem_other; [reflexivity|].
    intros E'. rewrite E' in E. rewrite String.eqb_refl in E. discriminate.
Qed.

Lemma fold_remove_keys (keys : list string) (ls : LocalStorage.t) :
  map fst (fold_left (fun ls key => storage_remove key ls) keys ls)
  = filter (fun k => negb (existsb (fun key => String.eqb (STORAGE_PREFIX ++ key) k) keys))
           (map fst ls).
Proof.
  revert ls. induction keys as [|key keys IH]; intros ls; cbn [fold_left existsb].
  - induction ls as [|e ls IHl]; cbn; [reflexivity|]. f_equal. exact IHl.
  - rewrite IH. unfold storage_remove, LocalStorage.removeItem.
    induction ls as [|e ls IHl]; cbn [filter map]; [reflexivity|].
    rewrite (String.eqb_sym (STORAGE_PREFIX ++ key)).
    destruct (String.eqb (fst e) (STORAGE_PREFIX ++ key)); cbn [negb filter map orb]; [exact IHl|].
    destruct (existsb _ keys); cbn [negb]; [exact IHl|]. f_equal. exact IHl.
Qed.

(** X10. [storage.clear] removes every entry whose name starts with the
    prefix and leaves every other entry as it was; afterwards [storage.keys]
    is empty. *)
Theorem storage_clear_spec (ls : LocalStorage.t) :
  storage_keys (storage_clear ls) = []
  /\ (forall k, String.prefix STORAGE_PREFIX k = true ->
        LocalStorage.getItem k (storage_clear ls) = None)
  /\ (forall k, String.prefix STORAGE_PREFIX k = false ->
        LocalStorage.getItem k (storage_clear ls) = LocalStorage.getItem k ls).
Proof.
  unfold storage_clear. cbv zeta.
  assert (P : forall k, String.prefix STORAGE_PREFIX k = true -> In k (map fst ls) ->
     existsb (fun key => String.eqb (STORAGE_PREFIX ++ key) k) (storage_keys ls) = true).
  { intros k Hp Hin. apply existsb_exists. exists (slice (String.length STORAGE_PREFIX) k).
    split.
    - apply storage_keys_listed. rewrite prefix_slice by exact Hp. exact Hin.
    - rewrite prefix_slice by exact Hp. apply String.eqb_refl. }
  assert (Q : forall k, String.prefix STORAGE_PREFIX k = false ->
     existsb (fun key => String.eqb (STORAGE_PREFIX ++ key) k) (storage_keys ls) = false).
  { intros k Hp. destruct (existsb _ _) eqn:E; [|reflexivity].
    apply existsb_exists in E. destruct E as (key & _ & E).
    apply String.eqb_eq in E. subst k. rewrite prefix_append in Hp. discriminate. }
  split; [|split].
  - rewrite storage_keys_filter, fold_remove_keys.
    match goal with |- map _ ?l0 = [] => set (l := l0); assert (E : l = []); [|rewrite E; reflexivity] end.
    assert (A : forall k, ~ In k l).
    { intros k H. subst l. apply filter_In in H. destruct H as [H1 H2].
      apply filter_In in H1. destruct H1 as [H3 H4].
      rewrite (P k H2 H3) in H4. discriminate. }
    destruct l as [|k l']; [reflexivity|].
    exfalso. apply (A k). left. reflexivity.
  - intros k Hp. rewrite fold_remove_getItem.
    destruct (existsb _ _) eqn:E; [reflexivity|].
    destruct (LocalStorage.getItem k ls) eqn:G; [|reflexivity].
    exfalso. rewrite P in E; [discriminate|exact Hp|].
    unfold LocalStorage.getItem in G. destruct (find _ ls) eqn:F; [|discriminate].
    apply find_some in F. destruct F as [Fin Fe]. apply String.eqb_eq in Fe. subst k.
    apply in_map. exact Fin.
  - intros k Hp. rewrite fold_remove_getItem, Q by exact Hp. reflexivity.
Qed.

End StorageKeysLaws.

(** ** Doors and pages *)

Section Lookup.

Context {A : Type}.

(** X11. The lookup of the active page and of the active door,
    [xs.find(p) ?? xs[0]]: it is [undefined] only on an empty list; otherwise
    it returns an element of the list, and one that satisfies [p] whenever
    the list has one. *)
Theorem find_or_first_spec (p : A -> bool) (xs : list A) :
  (xs = [] -> find_or_first p xs = None)
  /\ (xs <> [] ->
      exists x, find_or_first p xs = Some x /\ In x xs
                /\ ((exists y, In y xs /\ p y = true) -> p x = true)).
Proof.
  unfold find_or_first. split.
  - intros ->. reflexivity.
  - intros Hne. destruct (find p xs) as [x|] eqn:F.
    + exists x. apply find_some in F. destruct F as [F1 F2]. repeat split; auto.
    + destruct xs as [|x xs']; [contradiction|].
      exists x. cbn. split; [reflexivity|]. split; [left; reflexivity|].
      intros (y & Hy & Hp). apply (find_none _ _ F) in Hy. congruence.
Qed.
End Lookup.

(** X12. [handlePageSelect] always leaves the selected page active; selecting
    another page than the active one leaves the sidebar open; selecting the
    active page toggles the sidebar, and doing it twice changes nothing. *)
Theorem handlePageSelect_spec (pageId : string) (st : AppState) :
  let st' := handlePageSelect pageId st in
  st'.(activePageId) = pageId
  /\ (pageId <> st.(activePageId) -> st'.(sidebarOpen) = true)
  /\ (pageId = st.(activePageId) ->
      st'.(sidebarOpen) = negb st.(sidebarOpen)
      /\ handlePageSelect pageId st' = st).
Proof.
  cbv zeta. unfold handlePageSelect.
  destruct (String.eqb pageId (activePageId st)) eqn:E.
  - apply String.eqb_eq in E. cbn [activePageId sidebarOpen].
    rewrite <- E, String.eqb_refl. split; [reflexivity|].
    split; [intros H; contradiction|]. intros _. split; [reflexivity|].
    rewrite negb_involutive. destruct st. cbn in *. subst. reflexivity.
  - apply String.eqb_neq in E. cbn [activePageId sidebarOpen].
    split; [reflexivity|]. split; [|intros H; contradiction].
    intros _. destruct (sidebarOpen st); reflexivity.
Qed.

Section DoorLaws.

Context {num : Type}.
Local Open Scope string_scope.
Local Open Scope list_scope.

Lemma guideOf_key (k : Key.t) :
  exists g, guideOf (Key.name k) = Some g /\ g <> Guide.overlay.
Proof. destruct k; cbn; eexists; (split; [reflexivity|discriminate]). Qed.

Lemma get_set_key (k k' : Key.t) (v : Key.value num k) (c : DoorConfig num) :
  get_key k (set_key k v c) = v
  /\ (k' <> k -> get_key k' (set_key k v c) = get_key k' c).
Proof.
  split.
  - destruct k; reflexivity.
  - intros Hk. destruct k, k'; try reflexivity; contradiction.
Qed.

(** With distinct ids and the active id among them, the active door is the
    door of that id. *)
Lemma activeDoor_ok (st : DoorsState num) :
  doors_ok st ->
  exists ad, activeDoor st = Some ad /\ In ad st.(doors)
             /\ ad.(SavedDoor.id) = st.(activeDoorId).
Proof.
  intros (Hne & Hnd & Hin). unfold activeDoor, find_or_first.
  destruct (find _ (doors st)) as [ad|] eqn:F.
  - apply find_some in F. destruct F as [F1 F2]. apply String.eqb_eq in F2.
    exists ad. auto.
  - exfalso. unfold ids in Hin. apply in_map_iff in Hin.
    destruct Hin as (d & Hd & Hdin). apply (find_none _ _ F) in Hdin.
    rewrite Hd, String.eqb_refl in Hdin. discriminate.
Qed.

Lemma ids_map_same_id (f : SavedDoor.t num -> SavedDoor.t num) (ds : list (SavedDoor.t num)) :
  (forall d, (f d).(SavedDoor.id) = d.(SavedDoor.id)) -> ids (map f ds) = ids ds.
Proof.
  intros H. unfold ids. rewrite map_map. apply map_ext. exact H.
Qed.

Lemma map_not_nil {X Y} (f : X -> Y) (l : list X) : l <> [] -> map f l <> [].
Proof. destruct l; [contradiction|discriminate]. Qed.

Lemma NoDup_ids_filter (q : SavedDoor.t num -> bool) (ds : list (SavedDoor.t num)) :
  NoDup (ids ds) -> NoDup (ids (filter q ds)).
Proof.
  unfold ids. induction ds as [|d ds IH]; cbn; intros H; [constructor|].
  inversion H as [|? ? Hn Hd]; subst.
  destruct (q d); cbn; [constructor|]; auto.
  intros Hin. apply Hn. apply in_map_iff in Hin. destruct Hin as (x & Hx & Hxin).
  apply filter_In in Hxin. apply in_map_iff. exists x. tauto.
Qed.

Lemma filter_other_ids (id : string) (ds : list (SavedDoor.t num)) :
  NoDup (ids ds) -> In id (ids ds) ->
  List.length (filter (fun d => negb (String.eqb d.(SavedDoor.id) id)) ds)
  = (List.length ds - 1)%nat.
Proof.
  unfold ids. induction ds as [|d ds IH]; cbn; intros Hnd Hin; [contradiction|].
  inversion Hnd as [|? ? Hn Hd]; subst.
  destruct (String.eqb (SavedDoor.id d) id) eqn:E; cbn.
  - apply String.eqb_eq in E. subst id.
    rewrite Nat.sub_0_r. f_equal.
    clear IH Hin Hnd Hd. induction ds as [|e ds IH]; cbn; [reflexivity|].
    destruct (String.eqb (SavedDoor.id e) (SavedDoor.id d)) eqn:E; cbn.
    + apply String.eqb_eq in E. exfalso. apply Hn. left. exact E.
    + f_equal. apply IH. intros H. apply Hn. right. exact H.
  - destruct Hin as [Hin|Hin]; [subst; rewrite String.eqb_refl in E; discriminate|].
    rewrite IH by assumption.
    destruct ds; [contradiction|]. cbn. lia.
Qed.

Lemma filter_length_le {X} (q : X -> bool) (l : list X) :
  (List.length (filter q l) <= List.length l)%nat.
Proof. induction l; cbn; [lia|]. destruct (q a); cbn; lia. Qed.

Lemma filter_absent (id : string) (ds : list (SavedDoor.t num)) :
  ~ In id (ids ds) ->
  filter (fun d => negb (String.eqb d.(SavedDoor.id) id)) ds = ds.
Proof.
  unfold ids. induction ds as [|d ds IH]; cbn; intros H; [reflexivity|].
  destruct (String.eqb (SavedDoor.id d) id) eqn:E; cbn.
  - apply String.eqb_eq in E. exfalso. apply H. left. exact E.
  - f_equal. apply IH. tauto.
Qed.

Lemma in_ids_filter (id i : string) (ds : list (SavedDoor.t num)) :
  In i (ids ds) -> i <> id ->
  In i (ids (filter (fun d => negb (String.eqb d.(SavedDoor.id) id)) ds)).
Proof.
  unfold ids. intros Hin Hne. apply in_map_iff in Hin. destruct Hin as (d & Hd & Hdin).
  apply in_map_iff. exists d. split; [exact Hd|]. apply filter_In. split; [exact Hdin|].
  rewrite Hd. destruct (String.eqb i id) eqn:E; [apply String.eqb_eq in E; contradiction|reflexivity].
Qed.

Lemma not_in_ids_filter (id : string) (ds : list (SavedDoor.t num)) :
  ~ In id (ids (filter (fun d => negb (String.eqb d.(SavedDoor.id) id)) ds)).
Proof.
  unfold ids. intros Hin. apply in_map_iff in Hin. destruct Hin as (d & Hd & Hdin).
  apply filter_In in Hdin. destruct Hdin as [_ Hq]. rewrite Hd, String.eqb_refl in Hq. discriminate.
Qed.

(** [update], [addDoor] and [deleteDoor] return, and keep the door list in
    order: not empty, with distinct ids, the active door among them. *)
Lemma update_ok (k : Key.t) (v : Key.value num k) (st : DoorsState num) :
  doors_ok st -> exists st', update k v st = Some st' /\ doors_ok st'.
Proof.
  intros Hok. destruct (activeDoor_ok st Hok) as (ad & Had & _ & _).
  destruct Hok as (Hne & Hnd & Hact).
  unfold update. rewrite Had. eexists. split; [reflexivity|].
  unfold doors_ok. cbn [doors activeDoorId].
  rewrite ids_map_same_id by (intros d; destruct (String.eqb _ _); reflexivity).
  split; [apply map_not_nil; exact Hne|]. split; assumption.
Qed.

Lemma addDoor_ok (uuid : string) (st : DoorsState num) :
  doors_ok st -> ~ In uuid (ids st.(doors)) ->
  exists st', addDoor uuid st = Some st' /\ doors_ok st'.
Proof.
  intros Hok Hfresh. destruct (activeDoor_ok st Hok) as (ad & Had & _ & _).
  destruct Hok as (Hne & Hnd & Hact).
  unfold addDoor. rewrite Had. cbv zeta. eexists. split; [reflexivity|].
  unfold doors_ok. cbn [doors activeDoorId SavedDoor.id].
  split; [|split].
  - intros E. apply app_eq_nil in E. destruct E as [_ E]. discriminate.
  - unfold ids. rewrite map_app. cbn [map SavedDoor.id].
    apply NoDup_app; [exact Hnd|repeat constructor; intros []|].
    intros x Hx [Hx'|[]]. subst. contradiction.
  - unfold ids. rewrite map_app. apply in_or_app. right. left. reflexivity.
Qed.

Lemma deleteDoor_ok (id : string) (st : DoorsState num) :
  doors_ok st -> exists st', deleteDoor id st = Some st' /\ doors_ok st'.
Proof.
  intros Hok. pose proof Hok as (Hne & Hnd & Hact).
  unfold deleteDoor.
  destruct (List.length (doors st) <=? 1)%nat eqn:L.
  - exists st. split; [reflexivity|exact Hok].
  - apply Nat.leb_gt in L. cbv zeta.
    set (next := filter _ (doors st)).
    assert (Hnn : next <> []).
    { destruct (in_dec String.string_dec id (ids (doors st))) as [Hin|Hout].
      - pose proof (filter_other_ids id _ Hnd Hin) as Hl. fold next in Hl.
        intros E. rewrite E in Hl. cbn in Hl. lia.
      - unfold next. rewrite filter_absent by exact Hout. exact Hne. }
    assert (Hnd' : NoDup (ids next)) by (apply NoDup_ids_filter; exact Hnd).
    destruct (String.eqb (activeDoorId st) id) eqn:E.
    + destruct next as [|d next'] eqn:N; [contradiction|].
      eexists. split; [reflexivity|]. cbn [doors activeDoorId].
      split; [discriminate|]. split; [exact Hnd'|]. left. reflexivity.
    + eexists. split; [reflexivity|]. cbn [doors activeDoorId].
      split; [exact Hnn|]. split; [exact Hnd'|].
      apply in_ids_filter; [exact Hact|].
      apply String.eqb_neq in E. intros Heq. apply E. exact Heq.
Qed.

(** X13. [deleteDoor] on a list with distinct ids never throws and never
    empties the list.  On a single door it does nothing; otherwise it removes
    the door of the given id and no other, keeps the order of the rest and
    what is being edited; it keeps the active door unless that is the one
    deleted, and then the first remaining door becomes active. *)
Theorem deleteDoor_spec (id : string) (st : DoorsState num) :
  doors_ok st ->
  exists st',
    deleteDoor id st = Some st' /\ doors_ok st'
    /\ ((List.length st.(doors) <= 1)%nat -> st' = st)
    /\ ((2 <= List.length st.(doors))%nat ->
        st'.(doors)
          = filter (fun d => negb (String.eqb d.(SavedDoor.id) id)) st.(doors)
        /\ ~ In id (ids st'.(doors))
        /\ (st.(activeDoorId) <> id -> st'.(activeDoorId) = st.(activeDoorId))
        /\ (st.(activeDoorId) = id ->
            exists d rest,
              st'.(doors) = d :: rest
              /\ st'.(activeDoorId) = d.(SavedDoor.id))
        /\ (In id (ids st.(doors)) ->
            List.length st'.(doors) = (List.length st.(doors) - 1)%nat)
        /\ st'.(editingName) = st.(editingName)
        /\ st'.(editNameValue) = st.(editNameValue)
        /\ st'.(activeGuide) = st.(activeGuide)).
Proof.
  intros Hok. pose proof Hok as (Hne & Hnd & Hact).
  unfold deleteDoor.
  destruct (List.length (doors st) <=? 1)%nat eqn:L.
  - apply Nat.leb_le in L. exists st.
    split; [reflexivity|]. split; [exact Hok|]. split; [reflexivity|]. lia.
  - apply Nat.leb_gt in L. cbv zeta.
    set (next := filter _ (doors st)).
    assert (Hnn : next <> []).
    { destruct (in_dec String.string_dec id (ids (doors st))) as [Hin|Hout].
      - pose proof (filter_other_ids id _ Hnd Hin) as Hl. fold next in Hl.
        intros E. rewrite E in Hl. cbn in Hl. lia.
      - unfold next. rewrite filter_absent by exact Hout. exact Hne. }
    assert (Hnd' : NoDup (ids next)) by (apply NoDup_ids_filter; exact Hnd).
    assert (Hlen : In id (ids (doors st)) ->
                   List.length next = (List.length (doors st) - 1)%nat)
      by (intros Hin; apply filter_other_ids; assumption).
    destruct (String.eqb (activeDoorId st) id) eqn:E.
    + destruct next as [|d next'] eqn:N; [contradiction|].
      eexists. split; [reflexivity|].
      cbn [doors activeDoorId editingName editNameValue activeGuide].
      split; [|split; [lia|]].
      * split; [discriminate|]. split; [exact Hnd'|]. left. reflexivity.
      * intros _. rewrite <- N.
        split; [reflexivity|]. split; [apply not_in_ids_filter|].
        split; [intros Hneq; apply String.eqb_eq in E; contradiction|].
        split; [intros _; exists d, next'; split; [exact N|reflexivity]|].
        split; [rewrite N; exact Hlen|].
        repeat split.
    + eexists. split; [reflexivity|].
      cbn [doors activeDoorId editingName editNameValue activeGuide].
      split; [|split; [lia|]].
      * split; [exact Hnn|]. split; [exact Hnd'|].
        apply in_ids_filter; [exact Hact|].
        apply String.eqb_neq in E. intros Heq. apply E. exact Heq.
      * intros _. split; [reflexivity|]. split; [apply not_in_ids_filter|].
        split; [reflexivity|].
        split; [intros Heq; apply String.eqb_neq in E; contradiction|].
        split; [exact Hlen|]. repeat split.
Qed.

(** X14. [update] writes one key of one door: ids and names stay, every door
    but the active one stays as it is, the active door gets the value under
    the key and keeps its other keys; and the guide shown afterwards is never
    [null] and never the overlay, for any key. *)
Theorem update_spec (k : Key.t) (v : Key.value num k) (st : DoorsState num) :
  doors_ok st ->
  exists st',
    update k v st = Some st'
    /\ Forall2
         (fun d d' =>
            d'.(SavedDoor.id) = d.(SavedDoor.id)
            /\ d'.(SavedDoor.name) = d.(SavedDoor.name)
            /\ (d.(SavedDoor.id) <> st.(activeDoorId) -> d' = d)
            /\ (d.(SavedDoor.id) = st.(activeDoorId) ->
                get_key k d'.(SavedDoor.config) = v
                /\ forall k', k' <> k ->
                     get_key k' d'.(SavedDoor.config)
                     = get_key k' d.(SavedDoor.config)))
         st.(doors) st'.(doors)
    /\ st'.(activeDoorId) = st.(activeDoorId)
    /\ (exists g, st'.(activeGuide) = Some g /\ g <> Guide.overlay).
Proof.
  intros Hok. destruct (activeDoor_ok st Hok) as (ad & Had & _ & Hid).
  unfold update. rewrite Had. eexists. split; [reflexivity|].
  cbn [doors activeDoorId activeGuide]. split; [|split; [reflexivity|apply guideOf_key]].
  rewrite Hid. clear. induction (doors st) as [|d ds IH]; cbn [map]; constructor; [|exact IH].
  destruct (String.eqb (SavedDoor.id d) (activeDoorId st)) eqn:E.
  - apply String.eqb_eq in E. cbn [SavedDoor.id SavedDoor.name SavedDoor.config].
    repeat split; try contradiction.
    + apply (get_set_key k k).
    + intros k' Hk. apply get_set_key. exact Hk.
  - apply String.eqb_neq in E. repeat split; contradiction.
Qed.

Lemma find_app_fresh (uuid : string) (ds : list (SavedDoor.t num)) (d : SavedDoor.t num) :
  ~ In uuid (ids ds) -> d.(SavedDoor.id) = uuid ->
  find (fun x => String.eqb x.(SavedDoor.id) uuid) (ds ++ [d]) = Some d.
Proof.
  unfold ids. intros Hn Hd. induction ds as [|e ds IH]; cbn.
  - rewrite Hd, String.eqb_refl. reflexivity.
  - destruct (String.eqb (SavedDoor.id e) uuid) eqn:E.
    + apply String.eqb_eq in E. exfalso. apply Hn. left. exact E.
    + apply IH. intros H. apply Hn. right. exact H.
Qed.

(** X15. [addDoor] with an unused id appends one door that copies the
    configuration of the active door, names it after the new count, and
    makes it the active door; the doors before it are unchanged. *)
Theorem addDoor_spec (uuid : string) (st : DoorsState num) :
  doors_ok st -> ~ In uuid (ids st.(doors)) ->
  exists ad newDoor st',
    activeDoor st = Some ad
    /\ addDoor uuid st = Some st'
    /\ st'.(doors) = st.(doors) ++ [newDoor]
    /\ activeDoor st' = Some newDoor
    /\ newDoor.(SavedDoor.id) = uuid
    /\ newDoor.(SavedDoor.config) = ad.(SavedDoor.config)
    /\ newDoor.(SavedDoor.name)
       = ("Door " ++ nat_to_string (List.length st.(doors) + 1))%string
    /\ doors_ok st'.
Proof.
  intros Hok Hfresh. pose proof Hok as (Hne & Hnd & Hact).
  destruct (activeDoor_ok st Hok) as (ad & Had & _ & Hid).
  unfold addDoor. rewrite Had. cbv zeta.
  eexists ad, _, _. split; [reflexivity|]. split; [reflexivity|].
  cbn [doors activeDoorId SavedDoor.id SavedDoor.config SavedDoor.name].
  split; [reflexivity|]. split.
  - unfold activeDoor, find_or_first. cbn [doors activeDoorId].
    rewrite find_app_fresh; [reflexivity|exact Hfresh|reflexivity].
  - unfold doors_ok. cbn [doors activeDoorId SavedDoor.id].
    repeat split; try reflexivity.
    + intros E. apply app_eq_nil in E. destruct E as [_ E]. discriminate.
    + unfold ids. rewrite map_app. cbn [map SavedDoor.id].
      apply NoDup_app; [exact Hnd|repeat constructor; intros []|].
      intros x Hx [Hx'|[]]. subst. contradiction.
    + unfold ids. rewrite map_app. apply in_or_app. right. left. reflexivity.
Qed.

End DoorLaws.

Section DoorSessions.

Context {num : Type}.
Variable trim : string -> string.
Local Open Scope string_scope.
Local Open Scope list_scope.

(** X16. [commitRename] changes names only: ids, configurations and the
    active door stay, editing ends, a name that trims to nothing changes no
    door, and a door that did change carries the trimmed, non-empty name and
    is the one being edited. *)
Theorem commitRename_spec (st : DoorsState num) :
  let st' := commitRename trim st in
  ids st'.(doors) = ids st.(doors)
  /\ map SavedDoor.config st'.(doors) = map SavedDoor.config st.(doors)
  /\ st'.(activeDoorId) = st.(activeDoorId)
  /\ st'.(editingName) = None
  /\ (trim st.(editNameValue) = "" -> st'.(doors) = st.(doors))
  /\ (forall d', In d' st'.(doors) ->
        In d' st.(doors)
        \/ (d'.(SavedDoor.name) = trim st.(editNameValue)
            /\ d'.(SavedDoor.name) <> ""
            /\ st.(editingName) = Some d'.(SavedDoor.id))).
Proof.
  cbv zeta. unfold commitRename. cbv zeta. cbn [doors activeDoorId editingName].
  destruct (editingName st) as [editing|]; [|repeat split; auto].
  destruct (truthy editing && truthy (trim (editNameValue st))) eqn:T;
    [|repeat split; auto].
  apply andb_true_iff in T. destruct T as [T1 T2].
  unfold truthy in T2. apply negb_true_iff, String.eqb_neq in T2.
  split; [|split; [|split; [reflexivity|split; [reflexivity|split]]]].
  - apply ids_map_same_id. intros d. destruct (String.eqb _ _); reflexivity.
  - rewrite map_map. apply map_ext. intros d. destruct (String.eqb _ _); reflexivity.
  - intros E. contradiction.
  - intros d' Hin. apply in_map_iff in Hin. destruct Hin as (d & Hd & Hdin).
    destruct (String.eqb (SavedDoor.id d) editing) eqn:E.
    + right. subst d'. cbn [SavedDoor.name SavedDoor.id].
      apply String.eqb_eq in E. subst editing. auto.
    + left. subst d'. exact Hdin.
Qed.

(** So does [commitRename]. *)
Lemma commitRename_ok (st : DoorsState num) :
  doors_ok st -> doors_ok (commitRename trim st).
Proof.
  intros (Hne & Hnd & Hact). unfold commitRename, doors_ok. cbv zeta.
  cbn [doors activeDoorId].
  destruct (editingName st) as [editing|]; [|auto].
  destruct (truthy editing && truthy (trim (editNameValue st))); [|auto].
  rewrite ids_map_same_id by (intros d; destruct (String.eqb _ _); reflexivity).
  split; [apply map_not_nil; exact Hne|]. split; assumption.
Qed.

Lemma doorStep_ok (st : DoorsState num) (e : DoorEvent num) :
  doors_ok st -> deliverable st e ->
  exists st', doorStep trim st e = Some st' /\ doors_ok st'.
Proof.
  intros Hok Hd. destruct e as [k v|uuid|id|id|door|]; cbn [doorStep].
  - apply update_ok, Hok.
  - apply addDoor_ok; assumption.
  - apply deleteDoor_ok, Hok.
  - eexists. split; [reflexivity|]. destruct Hok as (Hne & Hnd & Hact).
    repeat split; auto.
  - eexists. split; [reflexivity|]. exact Hok.
  - eexists. split; [reflexivity|]. apply commitRename_ok, Hok.
Qed.

Lemma initialDoorsState_ok {N : JSNumber num} (uuid : string) :
  doors_ok (initialDoorsState uuid).
Proof.
  unfold doors_ok, initialDoorsState, initialDoors, ids.
  cbn [doors activeDoorId map createDoor SavedDoor.id].
  split; [discriminate|]. split; [repeat constructor; intros []|].
  left. reflexivity.
Qed.

Lemma doorRun_ok (es : list (DoorEvent num)) (st : DoorsState num) :
  doors_ok st -> deliverable_run trim st es ->
  exists st', doorRun trim st es = Some st' /\ doors_ok st'.
Proof.
  revert st. induction es as [|e es IH]; intros st Hok Hd; cbn [doorRun].
  - exists st. split; [reflexivity|exact Hok].
  - destruct Hd as [Hd Hrest].
    destruct (doorStep_ok st e Hok Hd) as (st1 & Hs & Hok1).
    rewrite Hs. apply IH; [exact Hok1|apply Hrest; exact Hs].
Qed.

(** X17. From the state of a first start, any sequence of deliverable events
    (edits, added doors with unused ids, deletions, selections of listed
    doors, renames) is handled without a throw and ends in a state whose door
    list is not empty, has distinct ids, and contains the active door. *)
Theorem doors_survive_session {N : JSNumber num} (uuid : string)
    (es : list (DoorEvent num)) :
  deliverable_run trim (initialDoorsState uuid) es ->
  exists st',
    doorRun trim (initialDoorsState uuid) es = Some st' /\ doors_ok st'.
Proof.
  intros Hd. apply doorRun_ok; [apply initialDoorsState_ok|exact Hd].
Qed.

End DoorSessions.

(** ** Instances of the laws above *)

Section Instances.

Lemma grid_fills_width_witness :
  let c : DoorConfig float := defaultConfig in
  ((300 <= 762 <= 1200)%Z /\ (0 <= 80 <= 300)%Z
   /\ c.(doorWidth) = float_of_Z 762 /\ c.(leftMargin) = float_of_Z 80
   /\ c.(rightMargin) = float_of_Z 80 /\ c.(horizontalGap) = float_of_Z 80)
  /\ map (fun u => (u.(label), u.(beadingLeftX), u.(beadingRightX)))
       (CutResult.unitPositions (calculateCuts c))
     = [ ("Top-Left"%string, 80%float, 341%float);
         ("Top-Right"%string, 421%float, 682%float);
         ("Bottom-Left"%string, 80%float, 341%float);
         ("Bottom-Right"%string, 421%float, 682%float) ].
Proof.
  cbv zeta.
  assert (Hdw : (300 <= 762 <= 1200)%Z) by lia.
  assert (Hm : (0 <= 80 <= 300)%Z) by lia.
  assert (E1 : (@defaultConfig float _).(doorWidth) = float_of_Z 762)
    by reflexivity.
  assert (E2 : (@defaultConfig float _).(leftMargin) = float_of_Z 80)
    by reflexivity.
  split; [repeat split; try lia; reflexivity|].
  exact (grid_fills_width defaultConfig 762 80 80 80 Hdw Hm Hm Hm
           E1 E2 E2 E2).
Defined.

(** Down the height the same does not hold: at [roundedSpanConfig] the
    bottom row ends one double above [doorHeight - bottomMargin]. *)
Lemma grid_misses_height :
  let c : DoorConfig float := roundedSpanConfig in
  (c.(doorHeight) - c.(bottomMargin))%float = 1717%float
  /\ bottomUnitBottom c = 1717.0000000000002%float.
Proof. cbv zeta. split; vm_compute; reflexivity. Qed.

Lemma panel_fits_unit_width_witness :
  let c : DoorConfig float := defaultConfig in
  ((300 <= 762 <= 1200)%Z /\ (0 <= 80 <= 300)%Z /\ (0 <= 20 <= 50)%Z
   /\ (0 <= 215 <= 600)%Z
   /\ c.(doorWidth) = float_of_Z 762 /\ c.(leftMargin) = float_of_Z 80
   /\ c.(rightMargin) = float_of_Z 80 /\ c.(horizontalGap) = float_of_Z 80
   /\ c.(beadingWidth) = float_of_Z 20
   /\ c.(mdfPanelWidth) = float_of_Z 215)
  /\ (c.(mdfPanelWidth) + 2 * panelBeadingGap c + 2 * c.(beadingWidth))%float
     = panelUnitWidth c.
Proof.
  cbv zeta.
  assert (Hdw : (300 <= 762 <= 1200)%Z) by lia.
  assert (Hm : (0 <= 80 <= 300)%Z) by lia.
  assert (Hbw : (0 <= 20 <= 50)%Z) by lia.
  assert (Hw : (0 <= 215 <= 600)%Z) by lia.
  assert (E1 : (@defaultConfig float _).(doorWidth) = float_of_Z 762)
    by reflexivity.
  assert (E2 : (@defaultConfig float _).(leftMargin) = float_of_Z 80)
    by reflexivity.
  assert (E3 : (@defaultConfig float _).(beadingWidth) = float_of_Z 20)
    by reflexivity.
  assert (E4 : (@defaultConfig float _).(mdfPanelWidth) = float_of_Z 215)
    by reflexivity.
  split; [repeat split; try lia; reflexivity|].
  exact (panel_fits_unit_width defaultConfig 762 80 80 80 20 215
           Hdw Hm Hm Hm Hbw Hw E1 E2 E2 E2 E3 E4).
Defined.

(** Two wheel steps down, a reset and a step up; thirty steps up reach the
    upper bound, ten steps down the lower one. *)
Example zoom_runs :
  fold_left zoomStep
    [Wheel 100%float; Wheel 100%float; DoubleClick; Wheel (-100)%float]
    1%float = 1.1%float
  /\ fold_left zoomStep (List.repeat (Wheel (-100)%float) 30) 1%float
     = 8%float
  /\ fold_left zoomStep (List.repeat (Wheel 100%float) 10) 1%float
     = 0.5%float.
Proof. repeat split; vm_compute; reflexivity. Qed.

Lemma storage_get_set_witness :
  let ls : LocalStorage.t := [("theme", "dark")]%string in
  let accepts := fun ls' : LocalStorage.t => (List.length ls' <=? 8)%nat in
  parse_bool (stringify_bool false) = Some false
  /\ accepts
       (LocalStorage.setItem (STORAGE_PREFIX ++ "sidebar-open")%string
          (stringify_bool false) ls) = true
  /\ storage_get parse_bool "sidebar-open" true
       (storage_set stringify_bool accepts "sidebar-open" false ls)
     = false.
Proof.
  cbv zeta. split; [reflexivity|]. split; [reflexivity|].
  apply (storage_get_set stringify_bool parse_bool
           (fun ls' : LocalStorage.t => (List.length ls' <=? 8)%nat)
           "sidebar-open" false true [("theme", "dark")]%string);
    vm_compute; reflexivity.
Defined.

Lemma storage_set_other_witness :
  let ls : LocalStorage.t :=
    [("shepherds-power-tools::door-calculator-preview-open", "true")]%string in
  "sidebar-open"%string <> "door-calculator-preview-open"%string
  /\ storage_get parse_bool "door-calculator-preview-open" false
       (storage_set stringify_bool (fun _ => true) "sidebar-open" false ls)
     = storage_get parse_bool "door-calculator-preview-open" false ls.
Proof.
  cbv zeta.
  assert (H : "sidebar-open"%string <> "door-calculator-preview-open"%string)
    by discriminate.
  split; [exact H|].
  apply (storage_set_other stringify_bool parse_bool (fun _ => true)
           "sidebar-open" "door-calculator-preview-open" false false _ H).
Defined.

End Instances.

Section DoorInstances.

Local Open Scope string_scope.
Local Open Scope list_scope.

Lemma twoDoorsState_ok : doors_ok (twoDoorsState (num := float)).
Proof.
  split; [discriminate|]. split; [|right; left; reflexivity].
  repeat constructor; simpl; intuition discriminate.
Qed.

(** Deleting the active door "b" of [twoDoorsState] leaves the door "a" and
    makes it active. *)
Lemma deleteDoor_active_example :
  deleteDoor "b" (twoDoorsState (num := float))
  = Some {| doors := [createDoor "a" "Door 1"];
            activeDoorId := "a";
            editingName := None;
            editNameValue := "";
            activeGuide := None |}.
Proof. reflexivity. Qed.

Lemma deleteDoor_spec_witness :
  let st : DoorsState float := twoDoorsState in
  doors_ok st
  /\ exists st',
       deleteDoor "b" st = Some st' /\ doors_ok st'
       /\ ((List.length st.(doors) <= 1)%nat -> st' = st)
       /\ ((2 <= List.length st.(doors))%nat ->
           st'.(doors)
             = filter (fun d => negb (String.eqb d.(SavedDoor.id) "b"))
                 st.(doors)
           /\ ~ In "b"%string (ids st'.(doors))
           /\ (st.(activeDoorId) <> "b"%string ->
               st'.(activeDoorId) = st.(activeDoorId))
           /\ (st.(activeDoorId) = "b"%string ->
               exists d rest,
                 st'.(doors) = d :: rest
                 /\ st'.(activeDoorId) = d.(SavedDoor.id))
           /\ (In "b"%string (ids st.(doors)) ->
               List.length st'.(doors) = (List.length st.(doors) - 1)%nat)
           /\ st'.(editingName) = st.(editingName)
           /\ st'.(editNameValue) = st.(editNameValue)
           /\ st'.(activeGuide) = st.(activeGuide)).
Proof.
  cbv zeta.
  split; [exact twoDoorsState_ok|].
  apply (deleteDoor_spec "b" twoDoorsState twoDoorsState_ok).
Defined.

Lemma update_spec_witness :
  let st : DoorsState float := initialDoorsState "a" in
  doors_ok st
  /\ exists st',
       update Key.mdfPanelWidth 200%float st = Some st'
       /\ Forall2
            (fun d d' =>
               d'.(SavedDoor.id) = d.(SavedDoor.id)
               /\ d'.(SavedDoor.name) = d.(SavedDoor.name)
               /\ (d.(SavedDoor.id) <> st.(activeDoorId) -> d' = d)
               /\ (d.(SavedDoor.id) = st.(activeDoorId) ->
                   get_key Key.mdfPanelWidth d'.(SavedDoor.config) = 200%float
                   /\ forall k', k' <> Key.mdfPanelWidth ->
                        get_key k' d'.(SavedDoor.config)
                        = get_key k' d.(SavedDoor.config)))
            st.(doors) st'.(doors)
       /\ st'.(activeDoorId) = st.(activeDoorId)
       /\ (exists g, st'.(activeGuide) = Some g /\ g <> Guide.overlay).
Proof.
  cbv zeta.
  assert (H : doors_ok (initialDoorsState (num := float) "a"))
    by (split; [discriminate|];
        split; [repeat constructor; simpl; intros []|left; reflexivity]).
  split; [exact H|].
  apply (update_spec Key.mdfPanelWidth 200%float (initialDoorsState "a") H).
Defined.

Lemma addDoor_spec_witness :
  let st : DoorsState float := initialDoorsState "a" in
  doors_ok st /\ ~ In "b"%string (ids st.(doors))
  /\ exists ad newDoor st',
       activeDoor st = Some ad
       /\ addDoor "b" st = Some st'
       /\ st'.(doors) = st.(doors) ++ [newDoor]
       /\ activeDoor st' = Some newDoor
       /\ newDoor.(SavedDoor.id) = "b"%string
       /\ newDoor.(SavedDoor.config) = ad.(SavedDoor.config)
       /\ newDoor.(SavedDoor.name)
          = ("Door " ++ nat_to_string (List.length st.(doors) + 1))%string
       /\ doors_ok st'.
Proof.
  cbv zeta.
  assert (H : doors_ok (initialDoorsState (num := float) "a"))
    by (split; [discriminate|];
        split; [repeat constructor; simpl; intros []|left; reflexivity]).
  assert (F : ~ In "b"%string
                (ids (initialDoorsState (num := float) "a").(doors)))
    by (simpl; intros [E|[]]; discriminate E).
  split; [exact H|]. split; [exact F|].
  apply (addDoor_spec "b" (initialDoorsState "a") H F).
Defined.

Lemma doors_survive_session_witness :
  let trim := fun s : string => s in
  deliverable_run trim (initialDoorsState (num := float) "a") exampleSession
  /\ exists st',
       doorRun trim (initialDoorsState (num := float) "a") exampleSession
       = Some st'
       /\ doors_ok st'.
Proof.
  cbv zeta.
  assert (H : deliverable_run (fun s : string => s)
                (initialDoorsState (num := float) "a") exampleSession).
  { simpl. split; [intros [E|[]]; discriminate E|].
    intros st1 E1. injection E1 as <-. split; [exact I|].
    intros st2 E2. injection E2 as <-. split; [left; reflexivity|].
    intros st3 E3. injection E3 as <-. split; [exact I|].
    intros st4 E4. injection E4 as <-. split; [left; reflexivity|].
    intros st5 _. exact I. }
  split; [exact H|].
  apply (doors_survive_session (fun s : string => s) "a" exampleSession H).
Defined.

End DoorInstances.
